(** * Last9 deployment-marker action: a shallow embedding of its resilient core

    The development follows the TypeScript sources:

    - [src/utils/errors.ts]   the error classes and their type guards
    - [src/utils/http.ts]     status classification, [parseRetryAfter],
                              [createHttpError]
    - [src/utils/time.ts]     [isExpired], [calculateBackoff]
    - [src/retry.ts]          [withRetry]
    - [src/providers/api/token-manager.ts]  [TokenManager]
    - [src/config.ts]         [loadConfig]
    - [src/attribute-collector.ts], [src/event-builder.ts], [src/index.ts]
    - [src/providers/api/last9-client.ts]  [Last9ApiClient] over [fetch]
    - [src/providers/context/github-context.ts]  [GitHubContextProvider]
    - [src/utils/logger.ts]   the redaction of logged data

    Conventions of the embedding.

    - A JavaScript [number] is a rational or NaN ([number] below).  Rounding
      of doubles, the infinities and the sign of zero are not represented.
    - Strings are byte strings; the character tests of [trim], [toLowerCase]
      and [parseInt] cover the ASCII range.
    - Asynchronous code is sequential state passing: an [await]ed call is a
      function from the state of the outside world to an outcome and the next
      state.  A rejected promise and a [throw] are the left summand of the
      outcome, carrying the thrown value.
    - Calls to the logger change neither control flow nor any value the
      program reads back, and are left out; the evaluation of their
      arguments is kept where it can throw. *)

From Stdlib Require Import ZArith QArith Qround Qpower String Ascii List Bool Lia Lqa.
From Stdlib Require Import DecimalString.
From stdpp Require Import base option gmap strings list.
Import ListNotations.

Local Open Scope string_scope.
Local Open Scope Z_scope.
Local Open Scope list_scope.

(** ** JavaScript numbers *)

Module Js.

Inductive number : Type :=
| Num (q : Q)
| NaN.

Definition of_Z (z : Z) : number := Num (inject_Z z).

(** The result of an arithmetic operation is kept in lowest terms. *)
Definition lift2 (f : Q -> Q -> Q) (a b : number) : number :=
  match a, b with
  | Num x, Num y => Num (Qred (f x y))
  | _, _ => NaN
  end.

Definition num_add : number -> number -> number := lift2 Qplus.
Definition num_sub : number -> number -> number := lift2 Qminus.
Definition num_mul : number -> number -> number := lift2 Qmult.
Definition num_div : number -> number -> number := lift2 Qdiv.

(** [a < b], [a <= b] and [a === b]; every comparison with NaN is false. *)
Definition num_lt (a b : number) : bool :=
  match a, b with
  | Num x, Num y => match (x ?= y)%Q with Lt => true | _ => false end
  | _, _ => false
  end.

Definition num_le (a b : number) : bool :=
  match a, b with
  | Num x, Num y => match (x ?= y)%Q with Gt => false | _ => true end
  | _, _ => false
  end.

Definition num_eq (a b : number) : bool :=
  match a, b with
  | Num x, Num y => match (x ?= y)%Q with Eq => true | _ => false end
  | _, _ => false
  end.


Definition isNaN (a : number) : bool :=
  match a with NaN => true | Num _ => false end.

(** Truthiness of a number: NaN and 0 are falsy. *)
Definition num_truthy (a : number) : bool :=
  match a with
  | Num x => negb (Qeq_bool x 0)
  | NaN => false
  end.

(** [Math.min], [Math.max], [Math.floor] and [Math.pow(2, n)] for an
    integer [n]. *)
Definition Qmin' (x y : Q) : Q :=
  match (x ?= y)%Q with Gt => y | _ => x end.
Definition Qmax' (x y : Q) : Q :=
  match (x ?= y)%Q with Lt => y | _ => x end.

Definition Math_min : number -> number -> number := lift2 Qmin'.
Definition Math_max : number -> number -> number := lift2 Qmax'.

Definition Math_floor (a : number) : number :=
  match a with
  | Num x => of_Z (Qfloor x)
  | NaN => NaN
  end.

Definition Math_pow2 (n : Z) : number := Num (Qpower 2 n).

(** A [Date] is its time value: integral milliseconds since the epoch, or
    NaN for an invalid date.  [new Date(ms)] truncates toward zero. *)
Definition Date : Type := number.

Definition Qtruncate (x : Q) : Z := Z.quot (Qnum x) (Z.pos (Qden x)).

Definition new_Date (ms : number) : Date :=
  match ms with
  | Num x => of_Z (Qtruncate x)
  | NaN => NaN
  end.

Definition getTime (d : Date) : number := d.

(** [a || b] on numbers. *)
Definition num_or (a b : number) : number :=
  if num_truthy a then a else b.

(** Truthiness of a string and the [||] operator on strings and on
    optional strings ([undefined] is [None]). *)
Definition str_truthy (s : string) : bool :=
  match s with EmptyString => false | _ => true end.

Definition str_or (a b : string) : string :=
  if str_truthy a then a else b.

Definition opt_truthy (o : option string) : bool :=
  match o with Some s => str_truthy s | None => false end.

Definition opt_or (a b : option string) : option string :=
  if opt_truthy a then a else b.

(** [n.toString()] for an integer, and for a number that is an integer or
    NaN. *)
Definition Z_toString (n : Z) : string := NilZero.string_of_int (Z.to_int n).

Definition num_toString (n : number) : string :=
  match n with
  | Num q => Z_toString (Qfloor q)
  | NaN => "NaN"
  end.

(** *** String primitives (ASCII) *)

Definition isWhiteSpace (c : ascii) : bool :=
  let n := N_of_ascii c in
  (N.eqb n 32 || (N.leb 9 n && N.leb n 13))%bool.

Fixpoint trimStart (s : string) : string :=
  match s with
  | String c rest => if isWhiteSpace c then trimStart rest else s
  | EmptyString => EmptyString
  end.

Fixpoint rev_string (s acc : string) : string :=
  match s with
  | String c rest => rev_string rest (String c acc)
  | EmptyString => acc
  end.

Definition trimEnd (s : string) : string :=
  rev_string (trimStart (rev_string s EmptyString)) EmptyString.

Definition trim (s : string) : string := trimEnd (trimStart s).

Definition lower (c : ascii) : ascii :=
  let n := N_of_ascii c in
  if (N.leb 65 n && N.leb n 90)%bool then ascii_of_N (n + 32) else c.

Fixpoint toLowerCase (s : string) : string :=
  match s with
  | String c rest => String (lower c) (toLowerCase rest)
  | EmptyString => EmptyString
  end.

Definition digit (c : ascii) : option Z :=
  let n := N_of_ascii c in
  if (N.leb 48 n && N.leb n 57)%bool then Some (Z.of_N n - 48) else None.

(** The longest prefix of decimal digits, read left to right; [None] when
    the string does not start with a digit. *)
Fixpoint digits (s : string) (acc : option Z) : option Z :=
  match s with
  | String c rest =>
      match digit c with
      | Some d => digits rest (Some (10 * default 0 acc + d))
      | None => acc
      end
  | EmptyString => acc
  end.

(** [parseInt(s, 10)]: leading white space is skipped, one sign is
    accepted, the longest run of digits is read and what follows is
    ignored; NaN when there is no digit. *)
Definition parseInt (s : string) : number :=
  match trimStart s with
  | String "-" rest =>
      match digits rest None with
      | Some n => of_Z (- n)
      | None => NaN
      end
  | String "+" rest =>
      match digits rest None with
      | Some n => of_Z n
      | None => NaN
      end
  | t =>
      match digits t None with
      | Some n => of_Z n
      | None => NaN
      end
  end.

End Js.

Import Js.

(** ** Error classes ([src/utils/errors.ts]) *)

Module Errors.

Inductive ErrorCode : Type :=
| CONFIG_ERROR | INVALID_INPUT | VALIDATION_ERROR
| TOKEN_EXCHANGE_ERROR | TOKEN_EXPIRED | UNAUTHORIZED
| NETWORK_ERROR | TIMEOUT_ERROR | CONNECTION_ERROR
| API_ERROR | RATE_LIMIT_ERROR | SERVER_ERROR
| PLUGIN_ERROR | PLUGIN_NOT_FOUND | PLUGIN_INIT_ERROR
| CIRCUIT_BREAKER_OPEN
| UNKNOWN_ERROR.

#[global] Instance ErrorCode_eq_dec : EqDecision ErrorCode.
Proof. solve_decision. Defined.

(** The value of the [ErrorCode] enum member. *)
Definition code_string (c : ErrorCode) : string :=
  match c with
  | CONFIG_ERROR => "CONFIG_ERROR"
  | INVALID_INPUT => "INVALID_INPUT"
  | VALIDATION_ERROR => "VALIDATION_ERROR"
  | TOKEN_EXCHANGE_ERROR => "TOKEN_EXCHANGE_ERROR"
  | TOKEN_EXPIRED => "TOKEN_EXPIRED"
  | UNAUTHORIZED => "UNAUTHORIZED"
  | NETWORK_ERROR => "NETWORK_ERROR"
  | TIMEOUT_ERROR => "TIMEOUT_ERROR"
  | CONNECTION_ERROR => "CONNECTION_ERROR"
  | API_ERROR => "API_ERROR"
  | RATE_LIMIT_ERROR => "RATE_LIMIT_ERROR"
  | SERVER_ERROR => "SERVER_ERROR"
  | PLUGIN_ERROR => "PLUGIN_ERROR"
  | PLUGIN_NOT_FOUND => "PLUGIN_NOT_FOUND"
  | PLUGIN_INIT_ERROR => "PLUGIN_INIT_ERROR"
  | CIRCUIT_BREAKER_OPEN => "CIRCUIT_BREAKER_OPEN"
  | UNKNOWN_ERROR => "UNKNOWN_ERROR"
  end.

(** Values stored in an error's [context] record. *)
Inductive CtxValue : Type :=
| CtxStr (s : string)
| CtxNum (n : number)
| CtxList (l : list string)
| CtxUndefined.

Definition Context : Type := gmap string CtxValue.

(** An instance of a subclass of [Last9Error].  Each subclass fixes its
    [code], so [code] also tells the class; [name] is the constructor's
    name.  The construction instant and the stack are not represented. *)
Record Last9Error : Type := mkLast9Error {
  name : string;
  code : ErrorCode;
  message : string;
  retryable : bool;
  statusCode : option Z;
  context : option Context;
  retryAfterMs : option number
}.

(** [{ ...context, key: value }] *)
Definition spread_with (ctx : option Context) (key : string) (v : CtxValue)
  : option Context :=
  Some (<[key := v]> (default ∅ ctx)).

Definition ConfigError (msg : string) (ctx : option Context) : Last9Error :=
  mkLast9Error "ConfigError" CONFIG_ERROR msg false None ctx None.

Definition InvalidInputError (msg : string) (ctx : option Context) : Last9Error :=
  mkLast9Error "InvalidInputError" INVALID_INPUT msg false None ctx None.

Definition ValidationError (msg : string) (errors : list string)
    (ctx : option Context) : Last9Error :=
  mkLast9Error "ValidationError" VALIDATION_ERROR msg false None
    (spread_with ctx "validationErrors" (CtxList errors)) None.

Definition TokenExchangeError (msg : string) (status : option Z)
    (ctx : option Context) : Last9Error :=
  mkLast9Error "TokenExchangeError" TOKEN_EXCHANGE_ERROR msg false status ctx None.

Definition TokenExpiredError (msg : option string) (ctx : option Context)
  : Last9Error :=
  mkLast9Error "TokenExpiredError" TOKEN_EXPIRED
    (default "Access token expired" msg) true (Some 401) ctx None.

Definition UnauthorizedError (msg : string) (ctx : option Context) : Last9Error :=
  mkLast9Error "UnauthorizedError" UNAUTHORIZED msg false (Some 401) ctx None.

Definition NetworkError (msg : string) (ctx : option Context) : Last9Error :=
  mkLast9Error "NetworkError" NETWORK_ERROR msg true None ctx None.

Definition TimeoutError (msg : string) (ctx : option Context) : Last9Error :=
  mkLast9Error "TimeoutError" TIMEOUT_ERROR msg true (Some 408) ctx None.

Definition ConnectionError (msg : string) (ctx : option Context) : Last9Error :=
  mkLast9Error "ConnectionError" CONNECTION_ERROR msg true None ctx None.

(** 5xx errors and 429 are retryable. *)
Definition ApiError (msg : string) (status : Z) (ctx : option Context)
  : Last9Error :=
  mkLast9Error "ApiError" API_ERROR msg
    ((500 <=? status)%Z || (status =? 429)%Z) (Some status) ctx None.

Definition RateLimitError (msg : string) (retryAfter : option number)
    (ctx : option Context) : Last9Error :=
  mkLast9Error "RateLimitError" RATE_LIMIT_ERROR msg true (Some 429)
    (spread_with ctx "retryAfterMs"
       (match retryAfter with Some n => CtxNum n | None => CtxUndefined end))
    retryAfter.

Definition ServerError (msg : string) (status : Z) (ctx : option Context)
  : Last9Error :=
  mkLast9Error "ServerError" SERVER_ERROR msg true (Some status) ctx None.

Definition PluginError (pluginName msg : string) (ctx : option Context)
  : Last9Error :=
  mkLast9Error "PluginError" PLUGIN_ERROR msg false None
    (spread_with ctx "pluginName" (CtxStr pluginName)) None.

Definition PluginNotFoundError (pluginName : string) : Last9Error :=
  mkLast9Error "PluginNotFoundError" PLUGIN_NOT_FOUND
    ("Plugin not found: " ++ pluginName)%string false None
    (Some {[ "pluginName" := CtxStr pluginName ]}) None.

Definition PluginInitError (pluginName msg : string) (ctx : option Context)
  : Last9Error :=
  mkLast9Error "PluginInitError" PLUGIN_INIT_ERROR msg false None
    (spread_with ctx "pluginName" (CtxStr pluginName)) None.

Definition CircuitBreakerOpenError (msg : string) (ctx : option Context)
  : Last9Error :=
  mkLast9Error "CircuitBreakerOpenError" CIRCUIT_BREAKER_OPEN msg false None ctx None.

Definition UnknownError (msg : string) (ctx : option Context) : Last9Error :=
  mkLast9Error "UnknownError" UNKNOWN_ERROR msg false None ctx None.

(** What a [throw] or a rejected promise carries: an instance of
    [Last9Error], another [Error] object (a [TypeError], a [SyntaxError],
    ...) with its [name] and [message], the values [undefined] and [null],
    or some other value given by its [String(...)] rendering. *)
Inductive Thrown : Type :=
| ThrowLast9 (e : Last9Error)
| ThrowError (name message : string)
| ThrowUndefined
| ThrowNull
| ThrowOther (rendering : string).

(** [(error as Error).message]: the property read throws a [TypeError] on
    [undefined] and on [null], and yields [undefined] on a value without
    the property. *)
Definition read_message (error : Thrown) : Thrown + option string :=
  match error with
  | ThrowLast9 e => inr (Some (message e))
  | ThrowError _ msg => inr (Some msg)
  | ThrowUndefined =>
      inl (ThrowError "TypeError"
             "Cannot read properties of undefined (reading 'message')")
  | ThrowNull =>
      inl (ThrowError "TypeError"
             "Cannot read properties of null (reading 'message')")
  | ThrowOther _ => inr None
  end.

Definition isLast9Error (error : Thrown) : bool :=
  match error with ThrowLast9 _ => true | _ => false end.

Definition isRetryableError (error : Thrown) : bool :=
  match error with
  | ThrowLast9 e => retryable e
  | _ => false
  end.

Definition wrapError (error : Thrown) (defaultMessage : option string)
  : Last9Error :=
  let fallback := str_or (default EmptyString defaultMessage) "Unknown error occurred" in
  match error with
  | ThrowLast9 e => e
  | ThrowError nm msg =>
      UnknownError (str_or msg fallback)
        (Some {[ "originalError" := CtxStr nm ]})
  | ThrowUndefined =>
      UnknownError fallback (Some {[ "originalError" := CtxStr "undefined" ]})
  | ThrowNull =>
      UnknownError fallback (Some {[ "originalError" := CtxStr "null" ]})
  | ThrowOther r =>
      UnknownError fallback (Some {[ "originalError" := CtxStr r ]})
  end.

End Errors.

Import Errors.

(** ** Host functions

    Functions of the JavaScript runtime and of Node that the sources call
    and whose results are data of the outside world.  They are parameters of
    the development. *)

(** A parsed JSON text. *)
#[warnings="-register-all"]
Inductive Json : Type :=
| JNull
| JBool (b : bool)
| JNumber (n : number)
| JString (s : string)
| JArray (items : list Json)
| JObject (entries : list (string * Json)).

Class Builtins : Type := {
  (** [new Date(s).getTime()]: NaN when [s] is not a date. *)
  Date_parse : string -> number;
  (** [new Date(ms).toISOString()] *)
  toISOString : Z -> string;
  (** [crypto.createHash('sha256').update(s).digest('hex')] *)
  sha256_hex : string -> string;
  (** [JSON.parse(s)]: the thrown [SyntaxError]'s message on the left. *)
  JSON_parse : string -> string + Json
}.

(** The part of the outside world that the retry loop and the token manager
    act on: the random source, the timer and the clock. *)
Class Runtime (S : Type) : Type := {
  (** [Math.random()] *)
  Math_random : S -> Q * S;
  (** [await sleep(ms)] *)
  sleep : number -> S -> S;
  (** [Date.now()] *)
  Date_now : S -> Z
}.

(** The serialisation of query parameters, which [buildUrl] calls. *)
Class UrlEncoder : Type := {
  (** [new URLSearchParams(params).toString()], for the entries of [params] *)
  URLSearchParams_toString : list (string * string) -> string
}.

(** ** HTTP utilities ([src/utils/http.ts]) *)

Module Http.

Definition OK : Z := 200.
Definition CREATED : Z := 201.
Definition NO_CONTENT : Z := 204.
Definition BAD_REQUEST : Z := 400.
Definition UNAUTHORIZED_STATUS : Z := 401.
Definition FORBIDDEN : Z := 403.
Definition NOT_FOUND : Z := 404.
Definition TIMEOUT : Z := 408.
Definition TOO_MANY_REQUESTS : Z := 429.
Definition INTERNAL_SERVER_ERROR : Z := 500.
Definition BAD_GATEWAY : Z := 502.
Definition SERVICE_UNAVAILABLE : Z := 503.
Definition GATEWAY_TIMEOUT : Z := 504.

Definition isSuccessStatus (statusCode : Z) : bool :=
  (200 <=? statusCode)%Z && (statusCode <? 300)%Z.

Definition isClientError (statusCode : Z) : bool :=
  (400 <=? statusCode)%Z && (statusCode <? 500)%Z.

Definition isServerError (statusCode : Z) : bool :=
  (500 <=? statusCode)%Z && (statusCode <? 600)%Z.

Definition isRetryableStatus (statusCode : Z) : bool :=
  isServerError statusCode || (statusCode =? TOO_MANY_REQUESTS)%Z.

(** [parseRetryAfter(retryAfter)], with the reading [now] of [Date.now()]. *)
Definition parseRetryAfter `{Builtins} (now : Z) (retryAfter : option string)
  : option number :=
  if negb (opt_truthy retryAfter) then None
  else
    let text := default EmptyString retryAfter in
    (* Try parsing as seconds *)
    let seconds := parseInt text in
    if negb (isNaN seconds) then Some (num_mul seconds (of_Z 1000))
    else
      (* Try parsing as HTTP date *)
      let date := Date_parse text in
      if negb (isNaN (getTime date))
      then Some (Math_max (of_Z 0) (num_sub (getTime date) (of_Z now)))
      else None.

(** [context?.['retry-after'] as string | undefined] *)
Definition retry_after_of (context : option Context) : option string :=
  match context with
  | Some ctx =>
      match ctx !! "retry-after" with
      | Some (CtxStr s) => Some s
      | _ => None
      end
  | None => None
  end.

Definition createHttpError `{Builtins} (now : Z)
    (statusCode : Z) (message : string) (context : option Context)
  : Last9Error :=
  if (statusCode =? TOO_MANY_REQUESTS)%Z then
    let retryAfter := parseRetryAfter now (retry_after_of context) in
    RateLimitError message retryAfter context
  else if ((statusCode =? TIMEOUT)%Z || (statusCode =? GATEWAY_TIMEOUT)%Z) then
    TimeoutError message context
  else if isServerError statusCode then
    ServerError message statusCode context
  else if isClientError statusCode then
    ApiError message statusCode context
  else
    ApiError message statusCode context.

(** [haystack.includes(needle)] *)
Fixpoint includes (needle haystack : string) : bool :=
  if String.prefix needle haystack then true
  else match haystack with
       | String _ rest => includes needle rest
       | EmptyString => false
       end.

(** [createNetworkError(error)] for an [Error] with the given [name] and
    [message]. *)
Definition createNetworkError (error_name error_message : string) : Last9Error :=
  let message := str_or error_message "Network error occurred" in
  if includes "timeout" (toLowerCase message) then
    TimeoutError message (Some {[ "originalError" := CtxStr error_name ]})
  else
    NetworkError message (Some {[ "originalError" := CtxStr error_name ]}).

(** [s.replace(/\/$/, '')]: a slash that ends the string is removed. *)
Fixpoint remove_trailing_slash (s : string) : string :=
  match s with
  | String c rest =>
      match rest with
      | EmptyString => if Ascii.eqb c "/" then EmptyString else s
      | String _ _ => String c (remove_trailing_slash rest)
      end
  | EmptyString => EmptyString
  end.

(** [buildUrl(baseUrl, path, params)]; [params] is given by its entries. *)
Definition buildUrl `{UrlEncoder} (baseUrl path : string)
    (params : option (list (string * string))) : string :=
  (* Remove trailing slash from base URL *)
  let base := remove_trailing_slash baseUrl in
  (* Ensure path starts with slash *)
  let fullPath := if String.prefix "/" path then path else ("/" ++ path)%string in
  (* Build URL *)
  let url := (base ++ fullPath)%string in
  (* Add query parameters *)
  match params with
  | Some (entry :: entries) =>
      (url ++ "?" ++ URLSearchParams_toString (entry :: entries))%string
  | Some [] | None => url
  end.

End Http.

(** ** Time utilities ([src/utils/time.ts]) *)

Module TimeUtils.

Definition getCurrentTimestamp `{Builtins} (now : Z) : string :=
  toISOString now.

(** [isExpired(timestamp, bufferSeconds = 0)], with the reading [now] of
    [Date.now()].  The timestamp is a number of seconds or a date string. *)
Definition isExpired `{Builtins} (now : Z)
    (timestamp : number + string) (bufferSeconds : option number) : bool :=
  let bufferSeconds := default (of_Z 0) bufferSeconds in
  let expiryTime :=
    match timestamp with
    | inr text => getTime (Date_parse text)
    | inl seconds => num_mul seconds (of_Z 1000)
    end in
  let buffer := num_mul bufferSeconds (of_Z 1000) in
  num_le (num_sub expiryTime buffer) (of_Z now).

(** [calculateBackoff(attemptNumber, baseMs, maxMs)]; [rnd] is the value
    that the call of [Math.random()] returns. *)
Definition calculateBackoff (rnd : Q)
    (attemptNumber : Z) (baseMs maxMs : number) : number :=
  let exponential := num_mul (Math_pow2 attemptNumber) baseMs in
  let jitter := num_mul (num_mul (Num rnd) (Num (3 # 10))) exponential in
  Math_min (num_add exponential jitter) maxMs.

End TimeUtils.

(** ** Effectful computations

    A computation reads and updates a state [S] and either returns a value
    or throws. *)

Definition Outcome (S A : Type) : Type := ((Thrown + A) * S)%type.

Definition M (S A : Type) : Type := S -> Outcome S A.

Definition ret {S A} (a : A) : M S A := fun s => (inr a, s).

Definition throw {S A} (e : Thrown) : M S A := fun s => (inl e, s).

Definition bind {S A B} (m : M S A) (k : A -> M S B) : M S B :=
  fun s =>
    match m s with
    | (inr a, s') => k a s'
    | (inl e, s') => (inl e, s')
    end.

(** [try { m } catch (error) { handler }] *)
Definition try_catch {S A} (m : M S A) (handler : Thrown -> M S A) : M S A :=
  fun s =>
    match m s with
    | (inr a, s') => (inr a, s')
    | (inl e, s') => handler e s'
    end.

(** An effect that cannot fail. *)
Definition act {S} (f : S -> S) : M S unit := fun s => (inr tt, f s).

Definition reads {S A} (f : S -> A) : M S A := fun s => (inr (f s), s).

Declare Scope js_scope.
Delimit Scope js_scope with js.
Notation "x <- m ;; k" := (bind m (fun x => k))
  (at level 100, m at next level, right associativity) : js_scope.
Notation "m ;;; k" := (bind m (fun _ => k))
  (at level 100, right associativity) : js_scope.

(** ** The retry wrapper ([src/retry.ts]) *)

Module Retry.

Record RetryConfig : Type := {
  maxAttempts : number;
  backoffMs : number;
  maxBackoffMs : number
}.

(** The two calls that the loop awaits, in the order they are made:
    [operation()] at a given value of [attempt], with what the call
    returned or threw, and [sleep(backoffTime)]. *)
Inductive RetryEvent (T : Type) : Type :=
| Attempt (attempt : Z) (outcome : Thrown + T)
| Sleep (backoffTime : number).

Arguments Attempt {T} attempt outcome.
Arguments Sleep {T} backoffTime.

(** The awaited calls alternate, from a call of the operation to a call of
    the operation. *)
Fixpoint alternates {T} (log : list (RetryEvent T)) : bool :=
  match log with
  | [Attempt _ _] => true
  | Attempt _ _ :: Sleep _ :: rest => alternates rest
  | _ => false
  end.

Definition attempts {T} (log : list (RetryEvent T)) : list Z :=
  omap (fun e => match e with Attempt i _ => Some i | Sleep _ => None end) log.

Definition sleeps {T} (log : list (RetryEvent T)) : list number :=
  omap (fun e => match e with Sleep ms => Some ms | Attempt _ _ => None end) log.

Section WithRetry.

Context {S T : Type} `{Runtime S}.

Variable operation : M S T.
Variable config : RetryConfig.

(** The statements after the loop: [throw lastError]. *)
Definition exhausted (lastError : Thrown) (s : S) : Outcome S T :=
  (inl lastError, s).

(** The [for] loop from the iteration that starts with the given value of
    [attempt] and of [lastError].  Each unit of [fuel] pays for one
    evaluation of the loop condition; [None] when the fuel runs out. *)
Fixpoint withRetry_loop (fuel : nat) (attempt : Z) (lastError : Thrown) (s : S)
  : option (Outcome S T * list (RetryEvent T)) :=
  match fuel with
  | O => None
  | Datatypes.S fuel' =>
      if num_lt (of_Z attempt) (maxAttempts config) then
        match operation s with
        | (inr result, s1) =>
            Some ((inr result, s1), [Attempt attempt (inr result)])
        | (inl error, s1) =>
            let lastError := error in
            (* Don't retry if this is the last attempt *)
            if num_eq (of_Z attempt) (num_sub (maxAttempts config) (of_Z 1))
            then Some (exhausted lastError s1, [Attempt attempt (inl error)])
            (* Don't retry if error is not retryable *)
            else if negb (isRetryableError error)
            then
              (* logger.debug(..., { error: lastError.message }); throw error *)
              match read_message lastError with
              | inl type_error =>
                  Some ((inl type_error, s1), [Attempt attempt (inl error)])
              | inr _ => Some ((inl error, s1), [Attempt attempt (inl error)])
              end
            else
              (* Calculate backoff and wait *)
              let (rnd, s2) := Math_random s1 in
              let backoffTime :=
                TimeUtils.calculateBackoff rnd attempt
                  (backoffMs config) (maxBackoffMs config) in
              let s3 := sleep backoffTime s2 in
              match withRetry_loop fuel' (attempt + 1) lastError s3 with
              | Some (out, log) =>
                  Some (out, Attempt attempt (inl error) :: Sleep backoffTime :: log)
              | None => None
              end
        end
      else Some (exhausted lastError s, [])
  end.

(** Enough fuel for every evaluation of the loop condition: one for each
    integer below [maxAttempts] and one for the evaluation that fails. *)
Definition loop_fuel : nat :=
  match maxAttempts config with
  | Num q => Datatypes.S (Z.to_nat (Qceiling q))
  | NaN => 1
  end.

(** [withRetry(operation, config)]: the outcome and the log of awaited
    calls. *)
Definition withRetry_logged (s : S) : Outcome S T * list (RetryEvent T) :=
  match withRetry_loop loop_fuel 0 ThrowUndefined s with
  | Some r => r
  | None => (exhausted ThrowUndefined s, [])
  end.

Definition withRetry : M S T := fun s => fst (withRetry_logged s).

End WithRetry.

End Retry.

(** ** Provider interfaces ([src/core/types/provider.ts], [event.ts]) *)

Inductive EventState : Type := start | stop.

(** [AttributeValue], and [undefined] for the value of a property that the
    type requires but that was read from an object without it. *)
Inductive AttributeValue : Type :=
| AttrString (s : string)
| AttrNumber (n : number)
| AttrBoolean (b : bool)
| AttrUndefined.

Record ChangeEvent : Type := {
  event_name : string;
  event_state : EventState;
  timestamp : option string;
  data_source_name : option string;
  attributes : gmap string AttributeValue
}.

Record ChangeEventResponse : Type := {
  success : bool;
  event_id : option string;
  response_timestamp : option string
}.

Record TokenResponse : Type := {
  access_token : string;
  refresh_token : string;
  expires_at : number;
  issued_at : number;
  scopes : list string
}.

Record CachedToken : Type := {
  accessToken : string;
  refreshToken : string;
  expiresAt : Date;
  cachedAt : Date
}.

(** The two network operations of [ApiClient], over the state [S] of the
    outside world. *)
Class ApiClient (S : Type) : Type := {
  sendChangeEvent : string -> ChangeEvent -> string -> M S ChangeEventResponse;
  refreshAccessToken : string -> M S TokenResponse
}.

Record RepositoryInfo : Type := { owner : string; repo : string; fullName : string }.
Record WorkflowInfo : Type := {
  workflow_name : string; runId : Z; runNumber : Z; runAttempt : number
}.
Record CommitInfo : Type := { sha : string; ref : string; commit_message : string }.
Record ActorInfo : Type := { username : string; email : option string }.
Record EventInfo : Type := { triggering_event : string }.

(** [ContextProvider], over the state [H] of the hosting job. *)
Class ContextProvider (H : Type) : Type := {
  getRepository : M H RepositoryInfo;
  getWorkflow : M H WorkflowInfo;
  getCommit : M H CommitInfo;
  getActor : M H ActorInfo;
  getEvent : M H EventInfo;
  getInput : string -> bool -> M H string;
  setOutput : string -> string -> M H unit;
  setSecret : string -> M H unit
}.

(** The random source, the timer and the clock of a state that carries
    further data on the side. *)
#[global] Instance Runtime_snd {A S : Type} `{Runtime S} : Runtime (A * S) := {|
  Math_random := fun '(a, s) => let (rnd, s') := Math_random s in (rnd, (a, s'));
  sleep := fun ms '(a, s) => (a, sleep ms s);
  Date_now := fun '(a, s) => Date_now s
|}.

(** ** Token manager ([src/providers/api/token-manager.ts]) *)

Module Token.

Record TokenManagerConfig : Type := {
  config_expiryBufferSeconds : option number
}.

Record TokenManager : Type := {
  cache : gmap string CachedToken;
  expiryBufferSeconds : number
}.

(** [new TokenManager(apiClient, config)] *)
Definition new_TokenManager (config : option TokenManagerConfig) : TokenManager :=
  {| cache := ∅;
     expiryBufferSeconds :=
       match config ≫= config_expiryBufferSeconds with
       | Some seconds => num_or seconds (of_Z 300)
       | None => of_Z 300
       end |}.

(** A call of [apiClient.refreshAccessToken] with its argument and
    outcome. *)
Inductive TokenEvent : Type :=
| Exchange (refreshToken : string) (outcome : Thrown + TokenResponse).

Section TokenManager.

Context `{Builtins} {S : Type} `{Runtime S} `{ApiClient S}.

Definition getCacheKey (refreshToken : string) : string :=
  String.substring 0 16 (sha256_hex refreshToken).

Definition isTokenExpired (this : TokenManager) (now : Z) (expiresAt : number)
  : bool :=
  TimeUtils.isExpired now (inl expiresAt) (Some (expiryBufferSeconds this)).

Definition with_cache (this : TokenManager) (c : gmap string CachedToken)
  : TokenManager :=
  {| cache := c; expiryBufferSeconds := expiryBufferSeconds this |}.

(** The condition [cached && !this.isTokenExpired(...)] of
    [getAccessToken]: the cached entry when it holds. *)
Definition valid_cached (this : TokenManager) (cacheKey : string) (now : Z)
  : option CachedToken :=
  match cache this !! cacheKey with
  | Some cached =>
      if negb (isTokenExpired this now
                 (Math_floor (num_div (getTime (expiresAt cached)) (of_Z 1000))))
      then Some cached
      else None
  | None => None
  end.

(** [getAccessToken(refreshToken)]: the outcome, the manager with its
    updated cache, the next state and the calls made to the API client. *)
Definition getAccessToken_logged (this : TokenManager) (refreshToken : string)
    (s : S) : (Thrown + string) * TokenManager * S * list TokenEvent :=
  let cacheKey := getCacheKey refreshToken in
  match valid_cached this cacheKey (Date_now s) with
  | Some cached =>
      (* Return cached token if still valid *)
      (inr (accessToken cached), this, s, [])
  | None =>
      (* Exchange refresh token for new access token *)
      let '(attempted, cache1, s1, log) :=
        (* the [try] block *)
        match refreshAccessToken refreshToken s with
        | (inr tokenResponse, s1) =>
            (* Cache new token *)
            let cachedToken :=
              {| accessToken := access_token tokenResponse;
                 refreshToken := refresh_token tokenResponse;
                 expiresAt :=
                   new_Date (num_mul (expires_at tokenResponse) (of_Z 1000));
                 cachedAt := new_Date (of_Z (Date_now s1)) |} in
            let cache1 := <[cacheKey := cachedToken]> (cache this) in
            (* logger.info(..., { expiresAt: cachedToken.expiresAt.toISOString() }):
               [toISOString] throws on an invalid date *)
            match expiresAt cachedToken with
            | Num _ =>
                (inr (access_token tokenResponse), cache1, s1,
                 [Exchange refreshToken (inr tokenResponse)])
            | NaN =>
                (inl (ThrowError "RangeError" "Invalid time value"), cache1, s1,
                 [Exchange refreshToken (inr tokenResponse)])
            end
        | (inl error, s1) =>
            (inl error, cache this, s1, [Exchange refreshToken (inl error)])
        end in
      match attempted with
      | inr token => (inr token, with_cache this cache1, s1, log)
      | inl error =>
          (* Clear cache on failure *)
          let this' := with_cache this (delete cacheKey cache1) in
          (* Wrap error *)
          let wrapped :=
            match error with
            | ThrowLast9 e =>
                TokenExchangeError
                  ("Failed to exchange refresh token: " ++ message e)%string None
                  (Some {[ "originalError" := CtxStr (name e) ]})
            | ThrowError nm msg =>
                TokenExchangeError
                  ("Failed to exchange refresh token: " ++ msg)%string None
                  (Some {[ "originalError" := CtxStr nm ]})
            | ThrowUndefined | ThrowNull | ThrowOther _ =>
                TokenExchangeError "Failed to exchange refresh token" None None
            end in
          (inl (ThrowLast9 wrapped), this', s1, log)
      end
  end.

(** The same as a computation on the manager and the outside world. *)
Definition getAccessToken (refreshToken : string) : M (TokenManager * S) string :=
  fun '(this, s) =>
    let '(result, this', s', _) := getAccessToken_logged this refreshToken s in
    (result, (this', s')).

Definition clearCache (this : TokenManager) : TokenManager :=
  with_cache this ∅.

End TokenManager.

End Token.

(** ** The API client ([src/providers/api/last9-client.ts])

    The configuration of [Last9ApiClient].  The client itself, which sits on
    [fetch], is a parameter of [run]: a function from this configuration to
    an [ApiClient]. *)

Module Client.

Record Last9ClientConfig : Type := {
  baseUrl : string;
  version : option string;
  timeoutMs : option number
}.

End Client.

(** ** Configuration ([src/config.ts]) *)

Module Config.

Inductive EventStateInput : Type := state_start | state_stop | state_both.

Record ActionConfig : Type := {
  apiBaseUrl : string;
  orgSlug : string;
  refreshToken : string;
  dataSourceName : option string;
  eventName : string;
  eventState : EventStateInput;
  includeGitHubAttributes : bool;
  customAttributes : gmap string AttributeValue;
  maxRetryAttempts : number;
  retryBackoffMs : number;
  maxRetryBackoffMs : number
}.

Definition parseEventState {Host : Type} (value : string)
  : M Host EventStateInput :=
  let normalized := trim (toLowerCase value) in
  if String.eqb normalized "start" then ret state_start
  else if String.eqb normalized "stop" then ret state_stop
  else if String.eqb normalized "both" then ret state_both
  else throw (ThrowLast9 (InvalidInputError
         ("Invalid event_state: " ++ value ++
          ". Must be 'start', 'stop', or 'both'")%string None)).

Definition parseBoolean (value : string) : bool :=
  let normalized := trim (toLowerCase value) in
  String.eqb normalized "true" || String.eqb normalized "1"
  || String.eqb normalized "yes".

(** [typeof val] is ['string'], ['number'] or ['boolean']. *)
Definition scalar (val : Json) : option AttributeValue :=
  match val with
  | JString s => Some (AttrString s)
  | JNumber n => Some (AttrNumber n)
  | JBool b => Some (AttrBoolean b)
  | JNull | JArray _ | JObject _ => None
  end.

(** The loop that validates the attribute values: the first entry that is
    not a scalar throws. *)
Fixpoint validate (entries : list (string * Json))
  : Last9Error + list (string * AttributeValue) :=
  match entries with
  | [] => inr []
  | (key, val) :: rest =>
      match scalar val with
      | None =>
          inl (ConfigError
                 ("Invalid attribute value for '" ++ key ++
                  "': must be string, number, or boolean")%string None)
      | Some v =>
          match validate rest with
          | inl e => inl e
          | inr vs => inr ((key, v) :: vs)
          end
      end
  end.

(** The object with the given entries; a later entry of the same key
    replaces an earlier one. *)
Definition object_of {V} (entries : list (string * V)) : gmap string V :=
  fold_left (fun o kv => <[kv.1 := kv.2]> o) entries ∅.

Definition parseCustomAttributes `{Builtins} {Host : Type} (value : string)
  : M Host (gmap string AttributeValue) :=
  if negb (str_truthy value) || String.eqb (trim value) EmptyString
  then ret ∅
  else
    match JSON_parse value with
    | inr (JObject entries) =>
        match validate entries with
        | inr vs => ret (object_of vs)
        | inl e => throw (ThrowLast9 e)
        end
    | inr _ =>
        throw (ThrowLast9 (ConfigError "custom_attributes must be a JSON object" None))
    | inl syntax_error =>
        throw (ThrowLast9 (ConfigError
                 ("Failed to parse custom_attributes as JSON: " ++ syntax_error)%string
                 None))
    end.

Section LoadConfig.

Context `{Builtins} {Host : Type} `{ContextProvider Host}.

Local Open Scope js_scope.

Definition loadConfig : M Host ActionConfig :=
  (* Required inputs *)
  refreshToken <- getInput "refresh_token" true ;;
  orgSlug <- getInput "org_slug" true ;;
  (* Mark token as secret *)
  setSecret refreshToken ;;;
  (* Optional inputs with defaults *)
  api_base_url <- getInput "api_base_url" false ;;
  let apiBaseUrl := str_or api_base_url "https://app.last9.io" in
  event_name <- getInput "event_name" false ;;
  let eventName := str_or event_name "deployment" in
  event_state <- getInput "event_state" false ;;
  eventState <- parseEventState (str_or event_state "stop") ;;
  data_source_name <- getInput "data_source_name" false ;;
  let dataSourceName :=
    if str_truthy data_source_name then Some data_source_name else None in
  (* Attributes *)
  include_github_attributes <- getInput "include_github_attributes" false ;;
  let includeGitHubAttributes :=
    parseBoolean (str_or include_github_attributes "true") in
  custom_attributes <- getInput "custom_attributes" false ;;
  customAttributes <- parseCustomAttributes custom_attributes ;;
  (* Retry configuration *)
  max_retry_attempts <- getInput "max_retry_attempts" false ;;
  let maxRetryAttempts := parseInt (str_or max_retry_attempts "3") in
  retry_backoff_ms <- getInput "retry_backoff_ms" false ;;
  let retryBackoffMs := parseInt (str_or retry_backoff_ms "1000") in
  max_retry_backoff_ms <- getInput "max_retry_backoff_ms" false ;;
  let maxRetryBackoffMs := parseInt (str_or max_retry_backoff_ms "30000") in
  ret {| apiBaseUrl := apiBaseUrl;
         orgSlug := orgSlug;
         refreshToken := refreshToken;
         dataSourceName := dataSourceName;
         eventName := eventName;
         eventState := eventState;
         includeGitHubAttributes := includeGitHubAttributes;
         customAttributes := customAttributes;
         maxRetryAttempts := maxRetryAttempts;
         retryBackoffMs := retryBackoffMs;
         maxRetryBackoffMs := maxRetryBackoffMs |}.

End LoadConfig.

End Config.

(** ** Attribute collection ([src/attribute-collector.ts]) *)

Module Attributes.

Record AttributeConfig : Type := {
  includeGitHub : bool;
  customAttributes : gmap string AttributeValue;
  (** Declared as strings; [None] is [undefined]. *)
  serviceName : option string;
  env : option string
}.

Definition attr_of (value : option string) : AttributeValue :=
  match value with
  | Some s => AttrString s
  | None => AttrUndefined
  end.

Section CollectAttributes.

Context {Host : Type} `{ContextProvider Host}.

Local Open Scope js_scope.

Definition collectAttributes (config : AttributeConfig)
  : M Host (gmap string AttributeValue) :=
  (* Always set required correlation attributes first *)
  let attributes : gmap string AttributeValue :=
    <["env" := attr_of (env config)]>
      (<["service_name" := attr_of (serviceName config)]> ∅) in
  (* Collect GitHub context attributes *)
  attributes <-
    (if includeGitHub config then
       try_catch
         (repo <- getRepository ;;
          workflow <- getWorkflow ;;
          commit <- getCommit ;;
          actor <- getActor ;;
          event <- getEvent ;;
          ret (<["event_name" := AttrString (triggering_event event)]>
              (<["actor" := AttrString (username actor)]>
              (<["commit_message" := AttrString (commit_message commit)]>
              (<["ref" := AttrString (ref commit)]>
              (<["commit_sha" := AttrString (sha commit)]>
              (<["run_attempt" := AttrString (num_toString (runAttempt workflow))]>
              (<["run_number" := AttrString (Z_toString (runNumber workflow))]>
              (<["run_id" := AttrString (Z_toString (runId workflow))]>
              (<["workflow" := AttrString (workflow_name workflow)]>
              (<["repository" := AttrString (fullName repo)]>
                 attributes)))))))))))
         (fun error =>
            (* logger.warning(..., { error: (error as Error).message }) *)
            match read_message error with
            | inl type_error => throw type_error
            | inr _ => ret attributes
            end)
     else ret attributes) ;;
  (* Merge custom attributes (these override GitHub attributes) *)
  ret (map_fold (fun key value acc => <[key := value]> acc)
         attributes (customAttributes config)).

End CollectAttributes.

End Attributes.

(** ** Event builder ([src/event-builder.ts]) *)

Module EventBuilder.

Record EventConfig : Type := {
  eventName : string;
  dataSourceName : option string
}.

(** [createDeploymentEvent(state, attributes, config)], with the reading
    [now] of the clock. *)
Definition createDeploymentEvent `{Builtins} (now : Z) (state : EventState)
    (attrs : gmap string AttributeValue) (config : EventConfig) : ChangeEvent :=
  {| event_name := eventName config;
     event_state := state;
     timestamp := Some (TimeUtils.getCurrentTimestamp now);
     data_source_name := dataSourceName config;
     attributes := attrs |}.

End EventBuilder.

(** ** The GitHub context provider
    ([src/providers/context/github-context.ts]) *)

Module GitHub.

(** What [github.context] and the process environment hold. *)
Record GitHubContext : Type := {
  (** [context.repo]; [None] when the getter throws for want of
      [GITHUB_REPOSITORY] *)
  gh_repo : option (string * string);
  gh_workflow : string;
  gh_runId : Z;
  gh_runNumber : Z;
  gh_sha : string;
  gh_ref : string;
  gh_actor : string;
  gh_eventName : string;
  (** [payload.head_commit.message] and [payload.commits[0].message] *)
  gh_head_commit_message : option string;
  gh_first_commit_message : option string;
  (** [GITHUB_RUN_ATTEMPT], [GITHUB_SHA_SHORT], [GITHUB_ACTOR_EMAIL] *)
  gh_run_attempt : option string;
  gh_sha_short : option string;
  gh_actor_email : option string
}.

(** The state of the hosting job: the inputs of the step, the context, and
    what the action has reported so far. *)
Record Host : Type := {
  host_inputs : gmap string string;
  host_github : GitHubContext;
  (** the calls of [core.setOutput], oldest first *)
  host_outputs : list (string * string);
  host_secrets : list string;
  (** the message of [core.setFailed], once called *)
  host_failed : option string
}.

Definition with_outputs (h : Host) (o : list (string * string)) : Host :=
  {| host_inputs := host_inputs h; host_github := host_github h;
     host_outputs := o; host_secrets := host_secrets h;
     host_failed := host_failed h |}.

Definition with_secrets (h : Host) (l : list string) : Host :=
  {| host_inputs := host_inputs h; host_github := host_github h;
     host_outputs := host_outputs h; host_secrets := l;
     host_failed := host_failed h |}.

Definition with_failed (h : Host) (m : option string) : Host :=
  {| host_inputs := host_inputs h; host_github := host_github h;
     host_outputs := host_outputs h; host_secrets := host_secrets h;
     host_failed := m |}.

(** [core.getInput(name, { required })] of [@actions/core]: the value of
    the input, or the empty string when it is not set; an [Error] when a
    required input is empty; the value is trimmed. *)
Definition core_getInput (name : string) (required : bool) : M Host string :=
  fun h =>
    let val := default EmptyString (host_inputs h !! name) in
    if required && negb (str_truthy val)
    then (inl (ThrowError "Error"
                 ("Input required and not supplied: " ++ name)%string), h)
    else (inr (trim val), h).

Definition core_setOutput (name value : string) : M Host unit :=
  act (fun h => with_outputs h (host_outputs h ++ [(name, value)])).

Definition core_setSecret (value : string) : M Host unit :=
  act (fun h => with_secrets h (host_secrets h ++ [value])).

Definition core_setFailed (message : string) : M Host unit :=
  act (fun h => with_failed h (Some message)).

Definition GitHub_getRepository : M Host RepositoryInfo :=
  fun h =>
    match gh_repo (host_github h) with
    | Some (owner, repo) =>
        (inr {| owner := owner; repo := repo;
                fullName := (owner ++ "/" ++ repo)%string |}, h)
    | None =>
        (inl (ThrowError "Error"
                "context.repo requires a GITHUB_REPOSITORY environment variable like 'owner/repo'"),
         h)
    end.

Definition GitHub_getWorkflow : M Host WorkflowInfo :=
  reads (fun h =>
    let c := host_github h in
    {| workflow_name := gh_workflow c;
       runId := gh_runId c;
       runNumber := gh_runNumber c;
       runAttempt := parseInt (str_or (default EmptyString (gh_run_attempt c)) "1") |}).

Definition getCommitMessage (c : GitHubContext) : string :=
  if opt_truthy (gh_head_commit_message c)
  then default EmptyString (gh_head_commit_message c)
  else if opt_truthy (gh_first_commit_message c)
  then default EmptyString (gh_first_commit_message c)
  else str_or (default EmptyString (gh_sha_short c)) (String.substring 0 7 (gh_sha c)).

Definition GitHub_getCommit : M Host CommitInfo :=
  reads (fun h =>
    let c := host_github h in
    {| sha := gh_sha c; ref := gh_ref c; commit_message := getCommitMessage c |}).

Definition GitHub_getActor : M Host ActorInfo :=
  reads (fun h =>
    let c := host_github h in
    {| username := gh_actor c; email := gh_actor_email c |}).

Definition GitHub_getEvent : M Host EventInfo :=
  reads (fun h => {| triggering_event := gh_eventName (host_github h) |}).

Definition GitHub_getInput (name : string) (required : bool) : M Host string :=
  let failed_to_get (message : string) : Thrown :=
    ThrowLast9 (InvalidInputError
      ("Failed to get input '" ++ name ++ "': " ++ message)%string None) in
  fun h =>
    match core_getInput name required h with
    | (inr value, h') =>
        if required && negb (str_truthy value)
        then (inl (failed_to_get
                     ("Required input '" ++ name ++ "' is missing")%string), h')
        else (inr value, h')
    | (inl (ThrowError _ message), h') => (inl (failed_to_get message), h')
    | (inl (ThrowLast9 e), h') => (inl (failed_to_get (Errors.message e)), h')
    | (inl other, h') => (inl other, h')
    end.

#[global] Instance GitHubContextProvider : ContextProvider Host := {|
  getRepository := GitHub_getRepository;
  getWorkflow := GitHub_getWorkflow;
  getCommit := GitHub_getCommit;
  getActor := GitHub_getActor;
  getEvent := GitHub_getEvent;
  getInput := GitHub_getInput;
  setOutput := core_setOutput;
  setSecret := core_setSecret
|}.

End GitHub.

(** ** The action ([src/index.ts]) *)

Module Main.

Import Config GitHub Token Retry Client.

Section Run.

Context `{Builtins} {N : Type} `{Runtime N}.

(** [new Last9ApiClient(config)] *)
Variable Last9ApiClient : Last9ClientConfig -> ApiClient N.

(** The state that [run] acts on: the hosting job, the token manager that
    [run] creates, and the outside world of the API client. *)
Record RunState : Type := {
  st_host : Host;
  st_tokens : TokenManager;
  st_net : N
}.

Definition on_host {A} (m : M Host A) : M RunState A :=
  fun st =>
    let (r, h) := m (st_host st) in
    (r, {| st_host := h; st_tokens := st_tokens st; st_net := st_net st |}).

Definition on_net {A} (m : M N A) : M RunState A :=
  fun st =>
    let (r, n) := m (st_net st) in
    (r, {| st_host := st_host st; st_tokens := st_tokens st; st_net := n |}).

Definition on_tokens {A} (m : M (TokenManager * N) A) : M RunState A :=
  fun st =>
    let '(r, (t, n)) := m (st_tokens st, st_net st) in
    (r, {| st_host := st_host st; st_tokens := t; st_net := n |}).

#[global] Instance Runtime_RunState : Runtime RunState := {|
  Math_random := fun st =>
    let (rnd, n) := Math_random (st_net st) in
    (rnd, {| st_host := st_host st; st_tokens := st_tokens st; st_net := n |});
  sleep := fun ms st =>
    {| st_host := st_host st; st_tokens := st_tokens st;
       st_net := sleep ms (st_net st) |};
  Date_now := fun st => Date_now (st_net st)
|}.

(** [config.serviceName] and [config.env]: the object that [loadConfig]
    returns has the eleven properties of [ActionConfig] and no other, so
    both reads yield [undefined]. *)
Definition config_serviceName (config : ActionConfig) : option string := None.
Definition config_env (config : ActionConfig) : option string := None.

Definition retry_config (config : ActionConfig) : RetryConfig :=
  {| maxAttempts := maxRetryAttempts config;
     backoffMs := retryBackoffMs config;
     maxBackoffMs := maxRetryBackoffMs config |}.

Local Open Scope js_scope.

(** One of the two blocks "send start event" and "send stop event", which
    differ in the state only; the value is the timestamp that the block
    assigns. *)
Definition send_event (apiClient : ApiClient N) (state : EventState)
    (config : ActionConfig) (attrs : gmap string AttributeValue)
    (accessToken : string) : M RunState (option string) :=
  now <- reads Date_now ;;
  let event :=
    EventBuilder.createDeploymentEvent now state attrs
      {| EventBuilder.eventName := eventName config;
         EventBuilder.dataSourceName := dataSourceName config |} in
  response <-
    withRetry
      (on_net (@sendChangeEvent N apiClient (orgSlug config) event accessToken))
      (retry_config config) ;;
  ret (opt_or (response_timestamp response) (timestamp event)).

(** The [try] block of [run]. *)
Definition run_try : M RunState unit :=
  (* Load configuration *)
  config <- on_host loadConfig ;;
  (* Initialize API client *)
  let apiClient : ApiClient N :=
    Last9ApiClient {| baseUrl := apiBaseUrl config;
                      version := None;
                      timeoutMs := Some (of_Z 30000) |} in
  (* Collect attributes *)
  attrs <- on_host (Attributes.collectAttributes
             {| Attributes.includeGitHub := includeGitHubAttributes config;
                Attributes.customAttributes := customAttributes config;
                Attributes.serviceName := config_serviceName config;
                Attributes.env := config_env config |}) ;;
  (* Get access token *)
  accessToken <-
    withRetry
      (on_tokens (@getAccessToken _ N _ apiClient (refreshToken config)))
      (retry_config config) ;;
  (* Send start event if needed *)
  startTimestamp <-
    (match eventState config with
     | state_start | state_both =>
         send_event apiClient start config attrs accessToken
     | state_stop => ret None
     end) ;;
  (* Send stop event if needed *)
  stopTimestamp <-
    (match eventState config with
     | state_stop | state_both =>
         send_event apiClient stop config attrs accessToken
     | state_start => ret None
     end) ;;
  (* Set outputs *)
  on_host (setOutput "success" "true") ;;;
  (if opt_truthy startTimestamp
   then on_host (setOutput "start_timestamp" (default EmptyString startTimestamp))
   else ret tt) ;;;
  (if opt_truthy stopTimestamp
   then on_host (setOutput "stop_timestamp" (default EmptyString stopTimestamp))
   else ret tt).

(** The message that the [catch] block passes to [core.setFailed]. *)
Definition failure_message (wrappedError : Last9Error) : string :=
  (name wrappedError ++ ": " ++ message wrappedError ++
   " (" ++ code_string (code wrappedError) ++ ")")%string.

(** The [catch] block of [run]. *)
Definition run_catch (error : Thrown) : M RunState unit :=
  let wrappedError :=
    match error with
    | ThrowLast9 e => e
    | _ => wrapError error None
    end in
  (* Set failure *)
  on_host (core_setFailed (failure_message wrappedError)) ;;;
  (* Set outputs to indicate failure *)
  on_host (core_setOutput "success" "false").

(** The state in which [run] starts.  The token manager is the one that
    the [try] block creates once the configuration is loaded, with a buffer
    of five minutes; nothing reads it before. *)
Definition initial (host : Host) (net : N) : RunState :=
  {| st_host := host;
     st_tokens :=
       new_TokenManager (Some {| config_expiryBufferSeconds := Some (of_Z 300) |});
     st_net := net |}.

(** [run()], from the state in which the action starts. *)
Definition run (host : Host) (net : N) : RunState :=
  snd (try_catch run_try run_catch (initial host net)).

End Run.

Arguments RunState N : clear implicits.

End Main.

(** ** The API client over [fetch] ([src/providers/api/last9-client.ts])

    The class [Last9ApiClient], of which [run] takes an instance as a
    parameter.  What the server answers is data of the outside world: a
    response is untyped JSON, so the results below hold JSON values where
    the interfaces [ChangeEventResponse] and [TokenResponse] declare
    strings and numbers. *)

Module Last9.

Import Http.

(** The objects handed to [JSON.stringify]: their properties, in the order
    they were set, are strings or the attributes of an event. *)
Inductive PayloadValue : Type :=
| PayloadString (s : string)
| PayloadAttributes (a : gmap string AttributeValue).

Definition Payload : Type := list (string * PayloadValue).

Class Serializer : Type := {
  (** [JSON.stringify(payload)] *)
  JSON_stringify : Payload -> string;
  (** [String(value)] for a parsed JSON value that is not a string *)
  String_of : Json -> string
}.

(** The arguments of a call of [fetch]; [signal] is the signal of an
    [AbortController] whose [abort] is scheduled after the given number of
    milliseconds. *)
Record Request : Type := {
  url : string;
  method : string;
  headers : list (string * string);
  body : option string;
  signal : number
}.

Record Response : Type := {
  status : Z;
  (** [headers.get('retry-after')]; [None] is [null] *)
  retry_after : option string;
  (** what [text()] and [json()] read: the body, or the value that the
      read rejects with *)
  text : Thrown + string
}.

(** [fetch]: it resolves with a response, or rejects: with an
    [AbortError] when the signal fires, with a [TypeError] when the network
    fails. *)
Class Network (S : Type) : Type := {
  fetch : Request -> M S Response
}.

(** Truthiness of a parsed JSON value. *)
Definition json_truthy (v : Json) : bool :=
  match v with
  | JNull => false
  | JBool b => b
  | JNumber n => num_truthy n
  | JString s => str_truthy s
  | JArray _ | JObject _ => true
  end.

(** [a || b], where [None] is [undefined]. *)
Definition json_or (a b : option Json) : option Json :=
  match a with
  | Some v => if json_truthy v then a else b
  | None => b
  end.

(** [object[key]] for a parsed JSON value and a key that is no property of
    a prototype: [undefined] when the value is no object or has no such
    entry; the read throws on [null]. *)
Definition get (object : Json) (key : string) : Thrown + option Json :=
  match object with
  | JNull =>
      inl (ThrowError "TypeError"
             ("Cannot read properties of null (reading '" ++ key ++ "')")%string)
  | JObject entries => inr (Config.object_of entries !! key)
  | JBool _ | JNumber _ | JString _ | JArray _ => inr None
  end.

(** The conversion of a message to a string by the constructor of
    [Error]. *)
Definition message_string `{Serializer} (v : Json) : string :=
  match v with
  | JString s => s
  | _ => String_of v
  end.

(** [await response.json()] *)
Definition json `{Builtins} {S : Type} (response : Response) : M S Json :=
  match text response with
  | inl error => throw error
  | inr body =>
      match JSON_parse body with
      | inl syntax_error => throw (ThrowError "SyntaxError" syntax_error)
      | inr value => ret value
      end
  end.

(** An instance of the class. *)
Record Last9ApiClient : Type := {
  baseUrl : string;
  version : string;
  timeoutMs : number
}.

(** [new Last9ApiClient(config)] *)
Definition new_Last9ApiClient (config : Client.Last9ClientConfig) : Last9ApiClient :=
  {| baseUrl := Client.baseUrl config;
     version := str_or (default EmptyString (Client.version config)) "v4";
     timeoutMs :=
       match Client.timeoutMs config with
       | Some ms => num_or ms (of_Z 30000)
       | None => of_Z 30000
       end |}.

(** The [options] of [makeRequest]. *)
Record RequestOptions : Type := {
  options_method : string;
  options_headers : list (string * string);
  options_body : option string
}.

(** The result of [sendChangeEvent]. *)
Record SentEvent : Type := {
  sent_success : bool;
  sent_event_id : option Json;
  sent_timestamp : option Json
}.

Definition state_name (state : EventState) : string :=
  match state with
  | start => "start"
  | stop => "stop"
  end.

(** [buildEventPayload(event)] *)
Definition buildEventPayload (event : ChangeEvent) : Payload :=
  let payload :=
    [("event_name", PayloadString (event_name event));
     ("event_state", PayloadString (state_name (event_state event)))] in
  let payload :=
    if opt_truthy (timestamp event)
    then payload ++ [("timestamp", PayloadString (default EmptyString (timestamp event)))]
    else payload in
  let payload :=
    if opt_truthy (data_source_name event)
    then payload ++ [("data_source_name",
                      PayloadString (default EmptyString (data_source_name event)))]
    else payload in
  let payload :=
    if Nat.ltb 0 (size (attributes event))
    then payload ++ [("attributes", PayloadAttributes (attributes event))]
    else payload in
  payload.

Section Methods.

Context `{Builtins} `{UrlEncoder} `{Serializer}.
Context {S : Type} `{Runtime S} `{Network S}.

Variable this : Last9ApiClient.

Local Open Scope js_scope.

(** The message of the error for a response that is no success: the
    [error] or the [message] of the body when the body is JSON and has
    one, and a default otherwise. *)
Definition errorMessage_of (response_status : Z) (errorBody : string) : string :=
  let errorMessage :=
    ("API request failed with status " ++ Z_toString response_status)%string in
  match JSON_parse errorBody with
  | inr errorJson =>
      match get errorJson "error", get errorJson "message" with
      | inr error, inr message =>
          match json_or (json_or error message) None with
          | Some v => message_string v
          | None => errorMessage
          end
      | _, _ => errorMessage
      end
  | inl _ =>
      (* Use default error message if body is not JSON *)
      errorMessage
  end.

(** The [catch] block of [makeRequest]. *)
Definition makeRequest_catch (request_url : string) (options : RequestOptions)
    (error : Thrown) : M S Response :=
  match error with
  | ThrowError name message =>
      (* Handle abort (timeout) *)
      if String.eqb name "AbortError" then
        now <- reads Date_now ;;
        throw (ThrowLast9
                 (createHttpError now 408
                    ("Request timeout after " ++ num_toString (timeoutMs this)
                     ++ "ms")%string
                    (Some (<["method" := CtxStr (options_method options)]>
                          (<["url" := CtxStr request_url]> ∅)))))
      (* Handle network errors *)
      else if String.eqb name "TypeError" then
        throw (ThrowLast9 (createNetworkError name message))
      (* Re-throw other errors *)
      else throw error
  | _ => throw error
  end.

(** [makeRequest(url, options)] *)
Definition makeRequest (request_url : string) (options : RequestOptions)
  : M S Response :=
  try_catch
    (response <- fetch {| url := request_url;
                          method := options_method options;
                          headers := options_headers options;
                          body := options_body options;
                          signal := timeoutMs this |} ;;
     (* Check for errors *)
     if negb (isSuccessStatus (status response)) then
       errorBody <- (fun s => (text response, s)) ;;
       now <- reads Date_now ;;
       throw (ThrowLast9
                (createHttpError now (status response)
                   (errorMessage_of (status response) errorBody)
                   (Some (<["retry-after" :=
                              if opt_truthy (retry_after response)
                              then CtxStr (default EmptyString (retry_after response))
                              else CtxUndefined]>
                          (<["statusCode" := CtxNum (of_Z (status response))]>
                          (<["method" := CtxStr (options_method options)]>
                          (<["url" := CtxStr request_url]> ∅)))))))
     else ret response)
    (makeRequest_catch request_url options).

(** [sendChangeEvent(orgSlug, event, accessToken)] *)
Definition sendChangeEvent (orgSlug : string) (event : ChangeEvent)
    (accessToken : string) : M S SentEvent :=
  let request_url :=
    buildUrl (baseUrl this)
      ("/api/" ++ version this ++ "/organizations/" ++ orgSlug ++ "/change_events")%string
      None in
  let payload := buildEventPayload event in
  try_catch
    (response <-
       makeRequest request_url
         {| options_method := "PUT";
            options_headers :=
              [("Content-Type", "application/json");
               ("X-LAST9-API-TOKEN", ("Bearer " ++ accessToken)%string)];
            options_body := Some (JSON_stringify payload) |} ;;
     result <- json response ;;
     id <- (fun s => (get result "id", s)) ;;
     response_timestamp <- (fun s => (get result "timestamp", s)) ;;
     ret {| sent_success := true;
            sent_event_id := id;
            sent_timestamp :=
              json_or response_timestamp (option_map JString (timestamp event)) |})
    (fun error => throw error).

(** [healthCheck()] *)
Definition healthCheck : M S bool :=
  try_catch
    (let request_url := buildUrl (baseUrl this) "/health" None in
     response <-
       makeRequest request_url
         {| options_method := "GET"; options_headers := []; options_body := None |} ;;
     ret (isSuccessStatus (status response)))
    (fun _ => ret false).

End Methods.

End Last9.

(** ** Redaction of logged data ([src/utils/logger.ts]) *)

Module Logger.













End Logger.

(** ** A scripted outside world

    An instance of the interfaces above on which the definitions compute:
    the clock, the draws of the random source and the outcomes of the
    network calls are given in advance, and the calls made are recorded. *)

Module Sim.

Record World : Type := {
  now : Z;
  (** the values of the calls of [Math.random()] to come *)
  draws : list Q;
  (** the outcomes of the token exchanges and of the sends to come *)
  exchanges : list (Thrown + TokenResponse);
  sends : list (Thrown + ChangeEventResponse);
  (** the delays slept, the refresh tokens exchanged and the events sent,
      oldest first *)
  slept : list number;
  exchanged : list string;
  sent : list ChangeEvent
}.

Definition fetch_failed : Thrown :=
  ThrowLast9 (NetworkError "fetch failed" None).

Definition sim_random (w : World) : Q * World :=
  (hd 0%Q (draws w),
   {| now := now w; draws := tl (draws w); exchanges := exchanges w;
      sends := sends w; slept := slept w; exchanged := exchanged w;
      sent := sent w |}).

Definition sim_sleep (ms : number) (w : World) : World :=
  {| now := now w + match ms with Num q => Z.max 0 (Qceiling q) | NaN => 0 end;
     draws := draws w; exchanges := exchanges w; sends := sends w;
     slept := slept w ++ [ms]; exchanged := exchanged w; sent := sent w |}.

Definition sim_refresh (refreshToken : string) : M World TokenResponse :=
  fun w =>
    (hd (inl fetch_failed) (exchanges w),
     {| now := now w; draws := draws w; exchanges := tl (exchanges w);
        sends := sends w; slept := slept w;
        exchanged := exchanged w ++ [refreshToken]; sent := sent w |}).

Definition sim_send (orgSlug : string) (event : ChangeEvent)
    (accessToken : string) : M World ChangeEventResponse :=
  fun w =>
    (hd (inl fetch_failed) (sends w),
     {| now := now w; draws := draws w; exchanges := exchanges w;
        sends := tl (sends w); slept := slept w;
        exchanged := exchanged w; sent := sent w ++ [event] |}).

Definition sim_runtime : Runtime World := {|
  Math_random := sim_random;
  sleep := sim_sleep;
  Date_now := now
|}.

Definition sim_client : ApiClient World := {|
  sendChangeEvent := sim_send;
  refreshAccessToken := sim_refresh
|}.

(** Stand-ins for the host functions: one string is a date, the text of an
    instant is its number of milliseconds, the digest is the text itself
    and no text is JSON. *)
Definition sim_builtins : Builtins := {|
  Date_parse := fun text =>
    if String.eqb text "Wed, 21 Oct 2015 07:28:00 GMT"
    then of_Z 1445412480000 else NaN;
  toISOString := fun ms => ("T" ++ Z_toString ms)%string;
  sha256_hex := fun text => text;
  JSON_parse := fun _ => inl "Unexpected token"
|}.

Definition world0 : World :=
  {| now := 1700000000000; draws := []; exchanges := []; sends := [];
     slept := []; exchanged := []; sent := [] |}.

(** An operation that rejects with the same error at every call, and a
    retry configuration with three attempts. *)
Definition always_rejects (error : Last9Error) : M World string :=
  throw (ThrowLast9 error).

Definition persistent : M World string :=
  always_rejects (NetworkError "Persistent failure" None).

Definition invalid : M World string :=
  always_rejects (ConfigError "Invalid config" None).

(** A token response that expires an hour after the instant of [world0]. *)
Definition token_response (token : string) : TokenResponse :=
  {| access_token := token;
     refresh_token := "refresh-1";
     expires_at := of_Z (1700000000 + 3600);
     issued_at := of_Z 1700000000;
     scopes := ["write"] |}.

Definition with_exchanges (w : World) (l : list (Thrown + TokenResponse)) : World :=
  {| now := now w; draws := draws w; exchanges := l; sends := sends w;
     slept := slept w; exchanged := exchanged w; sent := sent w |}.

Definition with_sends (w : World) (l : list (Thrown + ChangeEventResponse)) : World :=
  {| now := now w; draws := draws w; exchanges := exchanges w; sends := l;
     slept := slept w; exchanged := exchanged w; sent := sent w |}.

Definition three_attempts : Retry.RetryConfig :=
  {| Retry.maxAttempts := of_Z 3;
     Retry.backoffMs := of_Z 10;
     Retry.maxBackoffMs := of_Z 100 |}.


(** A hosting job: a push to the main branch of [acme/shop], and a step
    with the given inputs. *)
Definition github0 : GitHub.GitHubContext :=
  {| GitHub.gh_repo := Some ("acme", "shop");
     GitHub.gh_workflow := "deploy";
     GitHub.gh_runId := 42;
     GitHub.gh_runNumber := 7;
     GitHub.gh_sha := "0123456789abcdef";
     GitHub.gh_ref := "refs/heads/main";
     GitHub.gh_actor := "octocat";
     GitHub.gh_eventName := "push";
     GitHub.gh_head_commit_message := Some "Release";
     GitHub.gh_first_commit_message := None;
     GitHub.gh_run_attempt := Some "1";
     GitHub.gh_sha_short := None;
     GitHub.gh_actor_email := None |}.

Definition job (inputs : list (string * string)) : GitHub.Host :=
  {| GitHub.host_inputs := list_to_map inputs;
     GitHub.host_github := github0;
     GitHub.host_outputs := [];
     GitHub.host_secrets := [];
     GitHub.host_failed := None |}.

(** The step of the README's basic usage without its [env] line. *)
Definition job_without_env : GitHub.Host :=
  job [("refresh_token", "refresh-1"); ("org_slug", "acme")].

(** A step that marks both the start and the stop of a deployment. *)
Definition job_both : GitHub.Host :=
  job [("refresh_token", "refresh-1"); ("org_slug", "acme");
       ("env", "production"); ("event_state", "both")].

Definition accepted : Thrown + ChangeEventResponse :=
  inr {| success := true; event_id := Some "evt-1";
         response_timestamp := Some "2023-11-14T22:13:20.000Z" |}.

Definition unavailable : Thrown + ChangeEventResponse :=
  inl (ThrowLast9 (ServerError "Service unavailable" 503 None)).

(** A world in which the token exchange and the first send succeed and
    every later send is answered with the status 503. *)
Definition stop_fails : World :=
  with_sends (with_exchanges world0 [inr (token_response "access-1")])
    [accepted; unavailable; unavailable; unavailable].

(** A world in which the token exchange and two sends succeed. *)
Definition all_accepted : World :=
  with_sends (with_exchanges world0 [inr (token_response "access-1")])
    [accepted; accepted].

(** A token manager with the buffer that [run] configures, a world whose
    token endpoint answers twice, and the first call of [getAccessToken]
    in it. *)
Definition manager0 : Token.TokenManager :=
  Token.new_TokenManager
    (Some {| Token.config_expiryBufferSeconds := Some (of_Z 300) |}).

Definition answered : World :=
  with_exchanges world0
    [inr (token_response "access-1"); inr (token_response "access-2")].

Definition first_call
  : (Thrown + string) * Token.TokenManager * World * list Token.TokenEvent :=
  @Token.getAccessToken_logged sim_builtins _ sim_runtime sim_client
    manager0 "refresh-1" answered.

Definition manager1 : Token.TokenManager := snd (fst (fst first_call)).
Definition world1 : World := snd (fst first_call).



(** [run] in the scripted world. *)
Definition run_sim : GitHub.Host -> World -> Main.RunState World :=
  @Main.run sim_builtins World sim_runtime (fun _ => sim_client).

(** A world whose token endpoint cannot be reached at the first call. *)
Definition unreachable : World :=
  with_exchanges world0
    [inl fetch_failed; inr (token_response "access-1")].

End Sim.

(** ** Further scripted worlds

    Stand-ins for the serialisation functions, networks that answer every
    request with one response, and hosting jobs. *)

Module Scenes.

Import Sim.

Definition sim_url_encoder : UrlEncoder := {|
  URLSearchParams_toString := fun entries =>
    String.concat "&" (map (fun entry => (entry.1 ++ "=" ++ entry.2)%string) entries)
|}.

Definition sim_serializer : Last9.Serializer := {|
  Last9.JSON_stringify := fun payload => String.concat "," (map fst payload);
  Last9.String_of := fun _ => "[object Object]"
|}.

Definition answers (response : Last9.Response) : Last9.Network World := {|
  Last9.fetch := fun _ w => (inr response, w)
|}.

Definition unavailable_response : Last9.Response :=
  {| Last9.status := 503;
     Last9.retry_after := None;
     Last9.text := inr "Service Unavailable" |}.

Definition not_found_response : Last9.Response :=
  {| Last9.status := 404;
     Last9.retry_after := None;
     Last9.text := inr "Not Found" |}.

(** A response that reports success with a body that is no JSON. *)
Definition garbled_response : Last9.Response :=
  {| Last9.status := 200;
     Last9.retry_after := None;
     Last9.text := inr "<html>OK</html>" |}.

(** The client that [run] creates for the default base URL. *)
Definition client0 : Last9.Last9ApiClient :=
  Last9.new_Last9ApiClient
    {| Client.baseUrl := "https://app.last9.io";
       Client.version := None;
       Client.timeoutMs := Some (of_Z 30000) |}.

Definition stop_event : ChangeEvent :=
  @EventBuilder.createDeploymentEvent sim_builtins (now world0) stop ∅
    {| EventBuilder.eventName := "deployment";
       EventBuilder.dataSourceName := None |}.

Definition send_stop (response : Last9.Response) : M World Last9.SentEvent :=
  @Last9.sendChangeEvent sim_builtins sim_url_encoder sim_serializer World
    sim_runtime (answers response) client0 "acme" stop_event "access-1".

(** A step without inputs, and a step that allows no attempt. *)
Definition job_empty : GitHub.Host := job [].

Definition job_no_attempts : GitHub.Host :=
  job [("refresh_token", "refresh-1"); ("org_slug", "acme");
       ("max_retry_attempts", "0")].

(** The configurations that [loadConfig] returns for [job_without_env]
    and for [job_no_attempts]. *)
Definition default_config : Config.ActionConfig :=
  {| Config.apiBaseUrl := "https://app.last9.io";
     Config.orgSlug := "acme";
     Config.refreshToken := "refresh-1";
     Config.dataSourceName := None;
     Config.eventName := "deployment";
     Config.eventState := Config.state_stop;
     Config.includeGitHubAttributes := true;
     Config.customAttributes := ∅;
     Config.maxRetryAttempts := of_Z 3;
     Config.retryBackoffMs := of_Z 1000;
     Config.maxRetryBackoffMs := of_Z 30000 |}.

Definition no_attempts_config : Config.ActionConfig :=
  {| Config.apiBaseUrl := "https://app.last9.io";
     Config.orgSlug := "acme";
     Config.refreshToken := "refresh-1";
     Config.dataSourceName := None;
     Config.eventName := "deployment";
     Config.eventState := Config.state_stop;
     Config.includeGitHubAttributes := true;
     Config.customAttributes := ∅;
     Config.maxRetryAttempts := of_Z 0;
     Config.retryBackoffMs := of_Z 1000;
     Config.maxRetryBackoffMs := of_Z 30000 |}.

End Scenes.

(** ** Vocabulary of the statements *)

(** The computation [m] keeps the property [P] of the state, whether it
    returns or throws. *)
Definition keeps {S A} (P : S -> Prop) (m : M S A) : Prop :=
  forall s, P s -> P (snd (m s)).

(** The output that [run] sets for a timestamp: none when the timestamp is
    [undefined] or empty. *)
Definition reported (name : string) (value : option string)
  : list (string * string) :=
  if opt_truthy value then [(name, default EmptyString value)] else [].

(** The computation [m] returns or throws the same in two states that [R]
    relates, and leaves them related. *)
Definition agrees {S A} (R : S -> S -> Prop) (m : M S A) : Prop :=
  forall s1 s2, R s1 s2 ->
    fst (m s1) = fst (m s2) /\ R (snd (m s1)) (snd (m s2)).

(** Two hosting jobs that differ at most in the input [env]. *)
Definition same_but_env (h1 h2 : GitHub.Host) : Prop :=
  (forall name, name <> "env" ->
     GitHub.host_inputs h1 !! name = GitHub.host_inputs h2 !! name) /\
  GitHub.host_github h1 = GitHub.host_github h2 /\
  GitHub.host_outputs h1 = GitHub.host_outputs h2 /\
  GitHub.host_secrets h1 = GitHub.host_secrets h2 /\
  GitHub.host_failed h1 = GitHub.host_failed h2.

(** What the action has reported to the hosting job: the outputs set and
    the failure flag. *)
Definition report_is (outputs : list (string * string)) (failed : option string)
    (h : GitHub.Host) : Prop :=
  GitHub.host_outputs h = outputs /\ GitHub.host_failed h = failed.

(** Every token that the manager holds expires: the buffer is a number and
    every entry of the cache has a valid expiry date. *)
Definition expiring (this : Token.TokenManager) : Prop :=
  isNaN (Token.expiryBufferSeconds this) = false /\
  map_Forall (fun _ cached => isNaN (expiresAt cached) = false) (Token.cache this).

(** The computation [m] throws nothing but values with the property [P]. *)
Definition throws_only {S A} (P : Thrown -> Prop) (m : M S A) : Prop :=
  forall s, match fst (m s) with inl thrown => P thrown | inr _ => True end.

(** An error of the configuration: an [InvalidInputError] or a
    [ConfigError], neither of which is retryable. *)
Definition config_error (thrown : Thrown) : Prop :=
  exists error,
    thrown = ThrowLast9 error /\
    (code error = INVALID_INPUT \/ code error = CONFIG_ERROR) /\
    retryable error = false.



(** How [makeRequest] passes on a value that [fetch], or the read of the
    body, rejected with: an abort becomes a timeout with the status 408, a
    [TypeError] becomes a network error or a timeout, both retryable, and
    any other value is thrown on as it is. *)
Definition passed_on (rejected thrown : Thrown) : Prop :=
  match rejected with
  | ThrowError name _ =>
      if String.eqb name "AbortError" then
        exists error,
          thrown = ThrowLast9 error /\
          code error = TIMEOUT_ERROR /\ retryable error = true /\
          statusCode error = Some 408
      else if String.eqb name "TypeError" then
        exists error,
          thrown = ThrowLast9 error /\
          (code error = NETWORK_ERROR \/ code error = TIMEOUT_ERROR) /\
          retryable error = true
      else thrown = rejected
  | _ => thrown = rejected
  end.

(** The statuses of which [createHttpError] makes a retryable error. *)
Definition retried_status (status : Z) : bool :=
  (status =? 408) || (status =? 429) || (500 <=? status).

(** * Properties *)

(** ** Arithmetic of numbers that are integers *)

Section NumberFacts.

Lemma Qcompare_inject_Z (a b : Z) : (inject_Z a ?= inject_Z b)%Q = (a ?= b)%Z.
Proof. unfold Qcompare; simpl. by rewrite !Z.mul_1_r. Qed.

Lemma num_lt_of_Z (a b : Z) : num_lt (of_Z a) (of_Z b) = (a <? b)%Z.
Proof.
  unfold num_lt, of_Z. rewrite Qcompare_inject_Z, Z.ltb_compare. reflexivity.
Qed.

Lemma num_le_of_Z (a b : Z) : num_le (of_Z a) (of_Z b) = (a <=? b)%Z.
Proof.
  unfold num_le, of_Z. rewrite Qcompare_inject_Z, Z.leb_compare.
  by destruct (a ?= b)%Z.
Qed.

Lemma num_eq_pred (a m : Z) :
  num_eq (of_Z a) (num_sub (of_Z m) (of_Z 1)) = (a =? m - 1)%Z.
Proof.
  unfold num_eq, num_sub, of_Z, lift2.
  rewrite Qred_correct.
  change (inject_Z m - inject_Z 1)%Q with (inject_Z m + inject_Z (-1))%Q.
  rewrite <- inject_Z_plus, Qcompare_inject_Z, Z.eqb_compare.
  reflexivity.
Qed.

Lemma num_le_true (x y : Q) : num_le (Num x) (Num y) = true <-> (x <= y)%Q.
Proof.
  unfold num_le. rewrite Qle_alt. destruct (x ?= y)%Q; split; congruence.
Qed.

Lemma num_lt_true (x y : Q) : num_lt (Num x) (Num y) = true <-> (x < y)%Q.
Proof.
  unfold num_lt. rewrite Qlt_alt. destruct (x ?= y)%Q; split; congruence.
Qed.




End NumberFacts.

(** ** Backoff *)



(** The backoff of the tests: attempt 10, base 1000 and maximum 5000 give
    5000 whatever the draw; attempt 1 with a draw of 1/2 gives 2300. *)
Example calculateBackoff_capped :
  TimeUtils.calculateBackoff (1 # 2) 10 (of_Z 1000) (of_Z 5000) = of_Z 5000.
Proof. vm_compute. reflexivity. Qed.

Example calculateBackoff_attempt_1 :
  TimeUtils.calculateBackoff (1 # 2) 1 (of_Z 1000) (of_Z 30000) = of_Z 2300.
Proof. vm_compute. reflexivity. Qed.

(** ** The retry loop *)

Section RetryFacts.

Import Retry.

Context {S T : Type} `{Runtime S}.
Variable operation : M S T.
Variable config : RetryConfig.

Lemma attempts_Attempt i (o : Thrown + T) log :
  attempts (Attempt i o :: log) = i :: attempts log.
Proof. reflexivity. Qed.

Lemma attempts_Sleep ms (log : list (RetryEvent T)) :
  attempts (Sleep ms :: log) = attempts log.
Proof. reflexivity. Qed.

Lemma sleeps_Attempt i (o : Thrown + T) log :
  sleeps (Attempt i o :: log) = sleeps log.
Proof. reflexivity. Qed.

Lemma sleeps_Sleep ms (log : list (RetryEvent T)) :
  sleeps (Sleep ms :: log) = ms :: sleeps log.
Proof. reflexivity. Qed.

Lemma lt_below_ceiling (a : Z) (q : Q) :
  num_lt (of_Z a) (Num q) = true -> a < Qceiling q.
Proof.
  unfold num_lt, of_Z. destruct (inject_Z a ?= q)%Q eqn:E; try discriminate.
  intros _. rewrite <- Qlt_alt in E.
  rewrite Zlt_Qlt. eapply Qlt_le_trans; [exact E | apply Qle_ceiling].
Qed.

(** The fuel that [withRetry] hands to its loop is never used up. *)
Lemma withRetry_loop_total (fuel : nat) (attempt : Z) (lastError : Thrown) (s : S) :
  match maxAttempts config with
  | Num q => (Z.to_nat (Qceiling q - attempt) < fuel)%nat
  | NaN => (0 < fuel)%nat
  end ->
  is_Some (withRetry_loop operation config fuel attempt lastError s).
Proof.
  revert attempt lastError s.
  induction fuel as [|fuel IH]; intros attempt lastError s Hfuel.
  - destruct (maxAttempts config); lia.
  - cbn [withRetry_loop].
    destruct (num_lt (of_Z attempt) (maxAttempts config)) eqn:Hlt; [|eauto].
    destruct (operation s) as [[error|result] s1]; [|eauto].
    destruct (num_eq (of_Z attempt) _); [unfold exhausted; eauto|].
    destruct (negb (isRetryableError error));
      [destruct (read_message error); eauto|].
    destruct (Math_random s1) as [rnd s2].
    edestruct (IH (attempt + 1) error
                 (sleep (TimeUtils.calculateBackoff rnd attempt (backoffMs config)
                           (maxBackoffMs config)) s2)) as [[out log] Hsome].
    + destruct (maxAttempts config) as [q|]; [|discriminate].
      apply lt_below_ceiling in Hlt. lia.
    + rewrite Hsome. eauto.
Qed.

Lemma withRetry_logged_loop (s : S) :
  withRetry_loop operation config (loop_fuel config) 0 ThrowUndefined s
  = Some (withRetry_logged operation config s).
Proof.
  unfold withRetry_logged.
  destruct (withRetry_loop_total (loop_fuel config) 0 ThrowUndefined s) as [r Hr].
  - unfold loop_fuel. destruct (maxAttempts config); [|lia].
    rewrite Z.sub_0_r. lia.
  - by rewrite Hr.
Qed.


(** The awaited calls of a loop in which every call of the operation throws
    a retryable error, from the iteration at [attempt] on. *)
Lemma withRetry_loop_all_fail (m : Z) :
  maxAttempts config = of_Z m ->
  (forall s, exists e s', operation s = (inl e, s') /\ isRetryableError e = true) ->
  forall fuel attempt lastError s out log,
    attempt < m ->
    withRetry_loop operation config fuel attempt lastError s = Some (out, log) ->
    alternates log = true /\
    attempts log = seqZ attempt (m - attempt) /\
    Forall2 (fun i backoffTime => exists rnd,
               backoffTime = TimeUtils.calculateBackoff rnd i
                               (backoffMs config) (maxBackoffMs config))
            (seqZ attempt (m - attempt - 1)) (sleeps log) /\
    exists e s_last,
      operation s_last = (inl e, snd out) /\ fst out = inl e /\
      last log = Some (Attempt (m - 1) (inl e)).
Proof.
  intros Hmax Hfail.
  induction fuel as [|fuel IH]; intros attempt lastError s out log Hlt Hrun;
    [discriminate|].
  cbn [withRetry_loop] in Hrun.
  rewrite Hmax, num_lt_of_Z, num_eq_pred in Hrun.
  replace (attempt <? m) with true in Hrun by (symmetry; apply Z.ltb_lt; lia).
  destruct (Hfail s) as (e & s1 & Hop & Hretry). rewrite Hop in Hrun.
  destruct (attempt =? m - 1) eqn:Hlast.
  - apply Z.eqb_eq in Hlast. injection Hrun as <- <-. cbn.
    replace (m - attempt) with 1 by lia. replace (1 - 1) with 0 by lia.
    split; [reflexivity|]. split; [reflexivity|]. split; [constructor|].
    exists e, s. rewrite Hlast. done.
  - apply Z.eqb_neq in Hlast. rewrite Hretry in Hrun. cbn [negb] in Hrun.
    destruct (Math_random s1) as [rnd s2].
    destruct (withRetry_loop _ _ fuel _ _ _) as [[out' log']|] eqn:Hrec;
      [|discriminate].
    injection Hrun as <- <-.
    apply IH in Hrec as (Halt & Hatt & Hsl & e' & s_last & Hop' & Hout & Hlastev);
      [|lia].
    split; [exact Halt|]. split; [|split].
    + rewrite attempts_Attempt, attempts_Sleep, Hatt, (seqZ_cons attempt) by lia.
      do 2 f_equal; lia.
    + rewrite sleeps_Attempt, sleeps_Sleep, (seqZ_cons attempt) by lia.
      constructor; [eauto|].
      replace (Z.succ attempt) with (attempt + 1) by lia.
      replace (Z.pred (m - attempt - 1)) with (m - (attempt + 1) - 1) by lia.
      exact Hsl.
    + exists e', s_last. split; [done|]. split; [done|].
      destruct log' as [|ev log']; [discriminate|].
      by rewrite !last_cons_cons.
Qed.


(** A first call that throws a value that is not retryable, and of which
    the [message] can be read, ends the loop. *)
Lemma withRetry_first_call_final (m : Z) (s s1 : S) (e : Thrown) :
  maxAttempts config = of_Z m ->
  1 <= m ->
  operation s = (inl e, s1) ->
  isRetryableError e = false ->
  e <> ThrowUndefined -> e <> ThrowNull ->
  withRetry_logged operation config s = ((inl e, s1), [Attempt 0 (inl e)]).
Proof.
  intros Hmax Hm Hop Hretry Hundef Hnull.
  pose proof (withRetry_logged_loop s) as Hrun.
  destruct (loop_fuel config) as [|fuel] eqn:Hfuel.
  { unfold loop_fuel in Hfuel. destruct (maxAttempts config); discriminate. }
  cbn [withRetry_loop] in Hrun.
  rewrite Hmax, num_lt_of_Z, num_eq_pred, Hop, Hretry in Hrun.
  replace (0 <? m) with true in Hrun by (symmetry; apply Z.ltb_lt; lia).
  cbn [negb] in Hrun. unfold exhausted in Hrun.
  assert (exists msg, read_message e = inr msg) as [msg Hmsg]
    by (destruct e; cbn; eauto; congruence).
  rewrite Hmsg in Hrun.
  destruct (0 =? m - 1); by injection Hrun.
Qed.

(** C4.  When the first call of the operation throws an error that is not
    retryable and [maxAttempts] is an integer [m >= 1], [withRetry] makes
    that one call, does not sleep, and throws the error as it is, whatever
    [m] is.  An error is an instance of [Last9Error] or another [Error]
    object. *)
Theorem withRetry_non_retryable_fails_fast (m : Z) (s s1 : S) (e : Thrown) :
  maxAttempts config = of_Z m ->
  1 <= m ->
  operation s = (inl e, s1) ->
  isRetryableError e = false ->
  (exists e9, e = ThrowLast9 e9) \/ (exists nm msg, e = ThrowError nm msg) ->
  withRetry_logged operation config s = ((inl e, s1), [Attempt 0 (inl e)]) /\
  attempts (snd (withRetry_logged operation config s)) = [0] /\
  sleeps (snd (withRetry_logged operation config s)) = [].
Proof.
  intros Hmax Hm Hop Hretry Herror.
  rewrite (withRetry_first_call_final m s s1 e); try done.
  - by destruct Herror as [[e9 ->]|(nm & msg & ->)].
  - by destruct Herror as [[e9 ->]|(nm & msg & ->)].
Qed.

(** The value [undefined], thrown by a call that is not the last one
    allowed, is not thrown on: reading its [message] for the log throws a
    [TypeError]. *)
Lemma withRetry_thrown_undefined (m : Z) (s s1 : S) :
  maxAttempts config = of_Z m ->
  2 <= m ->
  operation s = (inl ThrowUndefined, s1) ->
  withRetry_logged operation config s
  = ((inl (ThrowError "TypeError"
             "Cannot read properties of undefined (reading 'message')"), s1),
     [Attempt 0 (inl ThrowUndefined)]).
Proof.
  intros Hmax Hm Hop.
  pose proof (withRetry_logged_loop s) as Hrun.
  destruct (loop_fuel config) as [|fuel] eqn:Hfuel.
  { unfold loop_fuel in Hfuel. destruct (maxAttempts config); discriminate. }
  cbn [withRetry_loop] in Hrun.
  rewrite Hmax, num_lt_of_Z, num_eq_pred, Hop in Hrun.
  replace (0 <? m) with true in Hrun by (symmetry; apply Z.ltb_lt; lia).
  replace (0 =? m - 1) with false in Hrun by (symmetry; apply Z.eqb_neq; lia).
  cbn in Hrun. by injection Hrun.
Qed.

(** C10.  When [maxAttempts] is an integer [m <= 0], [withRetry] never
    calls the operation and throws [undefined], the initial value of
    [lastError]; the first call is made exactly when [m >= 1], and nothing
    in [withRetry] checks that. *)
Theorem withRetry_without_attempts (m : Z) :
  maxAttempts config = of_Z m ->
  (m <= 0 ->
   forall s, withRetry_logged operation config s = ((inl ThrowUndefined, s), [])) /\
  (1 <= m ->
   forall s, exists rest,
     snd (withRetry_logged operation config s)
     = Attempt 0 (fst (operation s)) :: rest).
Proof.
  intros Hmax. split; intros Hm s.
  - pose proof (withRetry_logged_loop s) as Hrun.
    destruct (loop_fuel config) as [|fuel] eqn:Hfuel.
    { unfold loop_fuel in Hfuel. destruct (maxAttempts config); discriminate. }
    cbn [withRetry_loop] in Hrun. rewrite Hmax, num_lt_of_Z in Hrun.
    replace (0 <? m) with false in Hrun by (symmetry; apply Z.ltb_ge; lia).
    unfold exhausted in Hrun. by injection Hrun.
  - pose proof (withRetry_logged_loop s) as Hrun.
    destruct (loop_fuel config) as [|fuel] eqn:Hfuel.
    { unfold loop_fuel in Hfuel. destruct (maxAttempts config); discriminate. }
    cbn [withRetry_loop] in Hrun. rewrite Hmax, num_lt_of_Z in Hrun.
    replace (0 <? m) with true in Hrun by (symmetry; apply Z.ltb_lt; lia).
    destruct (operation s) as [[error|result] s1]; cbn [fst].
    2:{ injection Hrun as <-. eauto. }
    destruct (num_eq (of_Z 0) _); [injection Hrun as <-; eauto|].
    destruct (negb (isRetryableError error));
      [destruct (read_message error); injection Hrun as <-; eauto|].
    destruct (Math_random s1) as [rnd s2].
    destruct (withRetry_loop _ _ fuel _ _ _) as [[out' log']|]; [|discriminate].
    injection Hrun as <-. eauto.
Qed.

(** When [maxAttempts] is NaN the loop condition is false at once. *)
Lemma withRetry_NaN_attempts (s : S) :
  maxAttempts config = NaN ->
  withRetry_logged operation config s = ((inl ThrowUndefined, s), []).
Proof.
  intros Hmax. pose proof (withRetry_logged_loop s) as Hrun.
  unfold loop_fuel in Hrun. rewrite Hmax in Hrun.
  cbn [withRetry_loop] in Hrun. rewrite Hmax in Hrun. cbn in Hrun.
  by injection Hrun.
Qed.

(** A property of the state that the operation, the random source and the
    timer keep is kept by the whole loop. *)
Lemma withRetry_loop_invariant (P : S -> Prop) :
  (forall s, P s -> P (snd (operation s))) ->
  (forall s, P s -> P (snd (Math_random s))) ->
  (forall ms s, P s -> P (sleep ms s)) ->
  forall fuel attempt lastError s out log,
    P s ->
    withRetry_loop operation config fuel attempt lastError s = Some (out, log) ->
    P (snd out).
Proof.
  intros Hop Hrnd Hsleep.
  induction fuel as [|fuel IH]; intros attempt lastError s out log Hs Hrun;
    [discriminate|].
  cbn [withRetry_loop] in Hrun.
  destruct (num_lt (of_Z attempt) (maxAttempts config)).
  2:{ injection Hrun as <- <-. done. }
  pose proof (Hop s Hs) as Hs1.
  destruct (operation s) as [[error|result] s1]; cbn [snd] in Hs1.
  2:{ injection Hrun as <- <-. done. }
  destruct (num_eq (of_Z attempt) _); [injection Hrun as <- <-; done|].
  destruct (negb (isRetryableError error));
    [destruct (read_message error); injection Hrun as <- <-; done|].
  pose proof (Hrnd s1 Hs1) as Hs2.
  destruct (Math_random s1) as [rnd s2]; cbn [snd] in Hs2.
  destruct (withRetry_loop _ _ fuel _ _ _) as [[out' log']|] eqn:Hrec;
    [|discriminate].
  injection Hrun as <- <-.
  eapply IH; [|exact Hrec]. by apply Hsleep.
Qed.

Lemma withRetry_invariant (P : S -> Prop) :
  (forall s, P s -> P (snd (operation s))) ->
  (forall s, P s -> P (snd (Math_random s))) ->
  (forall ms s, P s -> P (sleep ms s)) ->
  forall s, P s -> P (snd (withRetry operation config s)).
Proof.
  intros Hop Hrnd Hsleep s Hs. unfold withRetry.
  pose proof (withRetry_logged_loop s) as Hrun.
  destruct (withRetry_logged operation config s) as [out log].
  eapply withRetry_loop_invariant; eauto.
Qed.

End RetryFacts.

(** *** The retry theorems on a scripted world *)

Section RetryWitnesses.

Import Retry Sim.


Lemma withRetry_non_retryable_fails_fast_witness :
  let e := ThrowLast9 (ConfigError "Invalid config" None) in
  @withRetry_logged _ _ Sim.sim_runtime invalid Sim.three_attempts Sim.world0
  = ((inl e, Sim.world0), [Attempt 0 (inl e)]) /\
  attempts (snd (@withRetry_logged _ _ Sim.sim_runtime invalid Sim.three_attempts
                   Sim.world0)) = [0] /\
  sleeps (snd (@withRetry_logged _ _ Sim.sim_runtime invalid Sim.three_attempts
                 Sim.world0)) = [].
Proof.
  intros e.
  apply (@withRetry_non_retryable_fails_fast _ _ Sim.sim_runtime invalid
           Sim.three_attempts 3 Sim.world0 Sim.world0 e);
    [reflexivity | lia | reflexivity | reflexivity | left; eexists; reflexivity].
Defined.

Lemma withRetry_without_attempts_witness :
  let no_attempts :=
    {| maxAttempts := of_Z 0; backoffMs := of_Z 10; maxBackoffMs := of_Z 100 |} in
  @withRetry_logged _ _ Sim.sim_runtime persistent no_attempts Sim.world0
  = ((inl ThrowUndefined, Sim.world0), []) /\
  exists rest,
    snd (@withRetry_logged _ _ Sim.sim_runtime persistent Sim.three_attempts
           Sim.world0)
    = Attempt 0 (fst (persistent Sim.world0)) :: rest.
Proof.
  intros no_attempts. split.
  - apply (proj1 (@withRetry_without_attempts _ _ Sim.sim_runtime persistent
                    no_attempts 0 eq_refl)); lia.
  - apply (proj2 (@withRetry_without_attempts _ _ Sim.sim_runtime persistent
                    Sim.three_attempts 3 eq_refl)); lia.
Defined.

(** The run of the first witness, computed: three calls, two sleeps of 10
    and 20 milliseconds (the draws of the scripted world are 0). *)
Example persistent_failure_run :
  @withRetry_logged _ _ Sim.sim_runtime persistent Sim.three_attempts Sim.world0
  = ((inl (ThrowLast9 (NetworkError "Persistent failure" None)),
      Sim.sim_sleep (Num (20 # 1)) (Sim.sim_sleep (Num (10 # 1)) Sim.world0)),
     [Attempt 0 (inl (ThrowLast9 (NetworkError "Persistent failure" None)));
      Sleep (Num (10 # 1));
      Attempt 1 (inl (ThrowLast9 (NetworkError "Persistent failure" None)));
      Sleep (Num (20 # 1));
      Attempt 2 (inl (ThrowLast9 (NetworkError "Persistent failure" None)))]).
Proof. vm_compute. reflexivity. Qed.

End RetryWitnesses.

(** ** Classification of HTTP errors *)

Section HttpFacts.

Import Http.

Context `{Builtins}.

(** C6, as the code has it.  Every status from 400 to 499 other than 429
    and 408 yields an [ApiError] that is not retryable and carries the
    status; the status 408 is taken out before the client-error test and
    yields a [TimeoutError], which is retryable. *)
Theorem createHttpError_client_errors (now : Z) (s : Z) (msg : string)
    (ctx : option Context) :
  400 <= s <= 499 ->
  s <> 429 ->
  (s <> 408 ->
   code (createHttpError now s msg ctx) = API_ERROR /\
   retryable (createHttpError now s msg ctx) = false /\
   statusCode (createHttpError now s msg ctx) = Some s) /\
  (s = 408 ->
   code (createHttpError now s msg ctx) = TIMEOUT_ERROR /\
   retryable (createHttpError now s msg ctx) = true).
Proof.
  intros Hrange H429. split.
  - intros H408. unfold createHttpError, TOO_MANY_REQUESTS, TIMEOUT, GATEWAY_TIMEOUT,
      isServerError, isClientError.
    replace (s =? 429) with false by (symmetry; apply Z.eqb_neq; lia).
    replace (s =? 408) with false by (symmetry; apply Z.eqb_neq; lia).
    replace (s =? 504) with false by (symmetry; apply Z.eqb_neq; lia).
    replace (500 <=? s) with false by (symmetry; apply Z.leb_gt; lia).
    replace (400 <=? s) with true by (symmetry; apply Z.leb_le; lia).
    replace (s <? 500) with true by (symmetry; apply Z.ltb_lt; lia).
    cbn. split; [done|]. split; [|done].
    replace (500 <=? s) with false by (symmetry; apply Z.leb_gt; lia).
    replace (s =? 429) with false by (symmetry; apply Z.eqb_neq; lia).
    done.
  - intros ->. done.
Qed.


End HttpFacts.

Lemma createHttpError_client_errors_witness :
  400 <= 404 <= 499 /\ 404 <> 429 /\ 404 <> 408 /\
  code (@Http.createHttpError Sim.sim_builtins 0 404 "Not found" None) = API_ERROR /\
  retryable (@Http.createHttpError Sim.sim_builtins 0 404 "Not found" None) = false /\
  statusCode (@Http.createHttpError Sim.sim_builtins 0 404 "Not found" None) = Some 404.
Proof.
  split; [lia|]. split; [lia|]. split; [lia|].
  apply (proj1 (@createHttpError_client_errors Sim.sim_builtins 0 404 "Not found"
                  None ltac:(lia) ltac:(lia))); lia.
Defined.

(** The status 408 lies between 400 and 499 and is not 429, and its error
    is neither of the [Api] kind nor non-retryable. *)
Lemma createHttpError_408_is_timeout :
  400 <= 408 <= 499 /\ 408 <> 429 /\
  ~ (code (@Http.createHttpError Sim.sim_builtins 0 408 "Request timeout" None)
     = API_ERROR /\
     retryable (@Http.createHttpError Sim.sim_builtins 0 408 "Request timeout" None)
     = false).
Proof.
  split; [lia|]. split; [lia|]. intros [Hcode _]. discriminate Hcode.
Qed.



(** The hints of the witness, computed: 5000 milliseconds for five seconds,
    10000 for a date ten seconds ahead, 0 for a date in the past. *)
Example parseRetryAfter_seconds :
  @Http.parseRetryAfter Sim.sim_builtins 0 (Some "5") = Some (of_Z 5000).
Proof. vm_compute. reflexivity. Qed.

Example parseRetryAfter_date_ahead :
  @Http.parseRetryAfter Sim.sim_builtins 1445412470000
    (Some "Wed, 21 Oct 2015 07:28:00 GMT") = Some (of_Z 10000).
Proof. vm_compute. reflexivity. Qed.

Example parseRetryAfter_date_past :
  @Http.parseRetryAfter Sim.sim_builtins 1445412490000
    (Some "Wed, 21 Oct 2015 07:28:00 GMT") = Some (of_Z 0).
Proof. vm_compute. reflexivity. Qed.

(** What [parseInt] makes of some header values. *)
Example parseInt_seconds : parseInt "120" = of_Z 120.
Proof. reflexivity. Qed.

Example parseInt_prefix : parseInt " 5 seconds" = of_Z 5.
Proof. reflexivity. Qed.

Example parseInt_http_date : parseInt "Wed, 21 Oct 2015 07:28:00 GMT" = NaN.
Proof. reflexivity. Qed.

Example parseInt_negative : parseInt "-5" = of_Z (-5).
Proof. reflexivity. Qed.

(** ** The token cache *)

Section TokenFacts.

Import Token.

Context `{Builtins} {S : Type} `{Runtime S} `{ApiClient S}.

Lemma num_le_integer (x : Q) (z now : Z) :
  (x == inject_Z z)%Q -> num_le (Num x) (of_Z now) = (z <=? now).
Proof.
  intros Hx. unfold num_le, of_Z. rewrite Hx, Qcompare_inject_Z, Z.leb_compare.
  by destruct (z ?= now).
Qed.




Lemma isTokenExpired_seconds (this : TokenManager) (now e b : Z) :
  expiryBufferSeconds this = of_Z b ->
  isTokenExpired this now (of_Z e) = ((e - b) * 1000 <=? now).
Proof.
  intros Hb. unfold isTokenExpired, TimeUtils.isExpired. cbn [default].
  rewrite Hb. unfold num_sub, num_mul, of_Z at 1 2 3 4, lift2.
  apply num_le_integer.
  rewrite !Qred_correct, <- !inject_Z_mult.
  unfold Qminus. rewrite <- inject_Z_opp, <- inject_Z_plus.
  apply inject_Z_injective. lia.
Qed.



(** What a call that finds no valid entry does. *)
Lemma getAccessToken_exchange (this : TokenManager) (refreshToken : string) (s : S) :
  valid_cached this (getCacheKey refreshToken) (Date_now s) = None ->
  match refreshAccessToken refreshToken s with
  | (inr resp, s1) =>
      forall e,
        new_Date (num_mul (expires_at resp) (of_Z 1000)) = Num e ->
        getAccessToken_logged this refreshToken s
        = (inr (access_token resp),
           with_cache this
             (<[getCacheKey refreshToken :=
                  {| accessToken := access_token resp;
                     refreshToken := refresh_token resp;
                     expiresAt := Num e;
                     cachedAt := new_Date (of_Z (Date_now s1)) |}]> (cache this)),
           s1, [Exchange refreshToken (inr resp)])
  | (inl error, s1) =>
      exists wrapped,
        code wrapped = TOKEN_EXCHANGE_ERROR /\
        retryable wrapped = false /\
        getAccessToken_logged this refreshToken s
        = (inl (ThrowLast9 wrapped),
           with_cache this (delete (getCacheKey refreshToken) (cache this)),
           s1, [Exchange refreshToken (inl error)])
  end.
Proof.
  intros Hvalid. unfold getAccessToken_logged. rewrite Hvalid.
  destruct (refreshAccessToken refreshToken s) as [[error|resp] s1].
  - eexists. split; [|split; [|reflexivity]]; by destruct error.
  - intros e He. cbn [expiresAt]. rewrite He. reflexivity.
Qed.



(** C9.  When [getAccessToken] finds no valid cached token and the exchange
    fails, with whatever thrown value, the call removes the cache entry of
    the key and throws a [TokenExchangeError], whose [retryable] is false.
    Under [withRetry] with an integral [maxAttempts >= 1], such a call is
    made once, with no sleep, and its error is what [withRetry] throws. *)
Theorem getAccessToken_failure_not_retried (this : TokenManager)
    (refreshToken : string) (s s1 : S) (error : Thrown)
    (config : Retry.RetryConfig) (m : Z) :
  valid_cached this (getCacheKey refreshToken) (Date_now s) = None ->
  refreshAccessToken refreshToken s = (inl error, s1) ->
  Retry.maxAttempts config = of_Z m ->
  1 <= m ->
  exists wrapped,
    code wrapped = TOKEN_EXCHANGE_ERROR /\
    retryable wrapped = false /\
    getAccessToken_logged this refreshToken s
    = (inl (ThrowLast9 wrapped),
       with_cache this (delete (getCacheKey refreshToken) (cache this)),
       s1, [Exchange refreshToken (inl error)]) /\
    Retry.withRetry_logged (getAccessToken refreshToken) config (this, s)
    = ((inl (ThrowLast9 wrapped),
        (with_cache this (delete (getCacheKey refreshToken) (cache this)), s1)),
       [Retry.Attempt 0 (inl (ThrowLast9 wrapped))]).
Proof.
  intros Hvalid Hexchange Hmax Hm.
  pose proof (getAccessToken_exchange this refreshToken s Hvalid) as Hcall.
  rewrite Hexchange in Hcall. destruct Hcall as (wrapped & Hcode & Hretry & Hcall).
  exists wrapped. repeat split; try done.
  eapply withRetry_first_call_final; eauto; try discriminate.
  unfold getAccessToken. by rewrite Hcall.
Qed.

End TokenFacts.

(** *** The token theorems on a scripted world *)

Section TokenWitnesses.

Import Token Sim.


(** The scenario of the specification, computed: a second call 3299
    seconds later is answered from the cache, a call 3300 seconds later
    exchanges again. *)
Example second_call_within_lease :
  @getAccessToken_logged Sim.sim_builtins _ Sim.sim_runtime Sim.sim_client
    manager1 "refresh-1" (Sim.sim_sleep (of_Z 3298999) world1)
  = (inr "access-1", manager1, Sim.sim_sleep (of_Z 3298999) world1, []).
Proof. vm_compute. reflexivity. Qed.

Example second_call_after_lease :
  let '(result, _, _, log) :=
    @getAccessToken_logged Sim.sim_builtins _ Sim.sim_runtime Sim.sim_client
      manager1 "refresh-1" (Sim.sim_sleep (of_Z 3300000) world1) in
  result = inr "access-2" /\
  log = [Exchange "refresh-1" (inr (Sim.token_response "access-2"))].
Proof. vm_compute. split; reflexivity. Qed.

Lemma getAccessToken_failure_not_retried_witness :
  exists wrapped,
    code wrapped = TOKEN_EXCHANGE_ERROR /\
    retryable wrapped = false /\
    @Retry.withRetry_logged _ _ (@Runtime_snd _ _ Sim.sim_runtime)
      (@getAccessToken Sim.sim_builtins _ Sim.sim_runtime Sim.sim_client "refresh-1")
      Sim.three_attempts (manager0, unreachable)
    = ((inl (ThrowLast9 wrapped),
        (with_cache manager0 (delete (@getCacheKey Sim.sim_builtins "refresh-1")
                                (cache manager0)),
         snd (Sim.sim_refresh "refresh-1" unreachable))),
       [Retry.Attempt 0 (inl (ThrowLast9 wrapped))]).
Proof.
  destruct (@getAccessToken_failure_not_retried Sim.sim_builtins _ Sim.sim_runtime
              Sim.sim_client manager0 "refresh-1" unreachable
              (snd (Sim.sim_refresh "refresh-1" unreachable))
              Sim.fetch_failed
              Sim.three_attempts 3 eq_refl eq_refl eq_refl ltac:(lia))
    as (wrapped & Hcode & Hretry & _ & Hrun).
  exists wrapped. auto.
Defined.

End TokenWitnesses.

(** ** The action *)

Section KeepsFacts.

Context {S : Type} (P : S -> Prop).

Lemma keeps_ret {A} (a : A) : keeps P (ret a).
Proof. by intros s Hs. Qed.

Lemma keeps_throw {A} (e : Thrown) : keeps P (@throw S A e).
Proof. by intros s Hs. Qed.

Lemma keeps_reads {A} (f : S -> A) : keeps P (reads f).
Proof. by intros s Hs. Qed.

Lemma keeps_bind {A B} (m : M S A) (k : A -> M S B) :
  keeps P m -> (forall a, keeps P (k a)) -> keeps P (bind m k).
Proof.
  intros Hm Hk s Hs. unfold bind. specialize (Hm s Hs).
  destruct (m s) as [[e|a] s']; [done|]. by apply Hk.
Qed.

Lemma keeps_try_catch {A} (m : M S A) (handler : Thrown -> M S A) :
  keeps P m -> (forall e, keeps P (handler e)) -> keeps P (try_catch m handler).
Proof.
  intros Hm Hh s Hs. unfold try_catch. specialize (Hm s Hs).
  destruct (m s) as [[e|a] s']; [by apply Hh | done].
Qed.

Lemma keeps_withRetry {T} `{Runtime S} (operation : M S T)
    (config : Retry.RetryConfig) :
  keeps P operation ->
  (forall s, P s -> P (snd (Math_random s))) ->
  (forall ms s, P s -> P (sleep ms s)) ->
  keeps P (Retry.withRetry operation config).
Proof. intros Hop Hrnd Hsleep s Hs. by apply withRetry_invariant. Qed.

(** A postcondition of [bind m k] from one of its continuation, when [m]
    keeps [P] and a throw under [P] meets the postcondition. *)
Lemma bind_outcome {A B} (Q : Outcome S B -> Prop) (m : M S A) (k : A -> M S B)
    (s : S) :
  keeps P m -> P s ->
  (forall e s', P s' -> Q (inl e, s')) ->
  (forall a s', P s' -> Q (k a s')) ->
  Q (bind m k s).
Proof.
  intros Hm Hs Hthrow Hk. unfold bind. specialize (Hm s Hs).
  destruct (m s) as [[e|a] s']; [by apply Hthrow | by apply Hk].
Qed.

End KeepsFacts.

(** Working through a chain of binds. *)
Ltac keeps_step :=
  lazymatch goal with
  | |- keeps _ (bind _ _) => apply keeps_bind; [|intros ?]
  | |- keeps _ (try_catch _ _) => apply keeps_try_catch; [|intros ?]
  | |- keeps _ (ret _) => apply keeps_ret
  | |- keeps _ (throw _) => apply keeps_throw
  | |- keeps _ (reads _) => apply keeps_reads
  | |- keeps _ (if ?c then _ else _) => destruct c
  | |- keeps _ (match ?x with _ => _ end) => destruct x
  end.

Section RunFacts.

Import Config GitHub Token Retry Client Main.

Context `{Builtins} {N : Type} `{Runtime N}.
Variable Last9ApiClient : Last9ClientConfig -> ApiClient N.

Lemma keeps_getInput o f name required :
  keeps (report_is o f) (GitHub_getInput name required).
Proof.
  intros h Hh. unfold GitHub_getInput, core_getInput.
  destruct (required && negb (str_truthy (default EmptyString (host_inputs h !! name)))).
  - done.
  - by destruct (required && negb (str_truthy _)).
Qed.

Lemma keeps_setSecret o f value : keeps (report_is o f) (core_setSecret value).
Proof. by intros h Hh. Qed.

Lemma keeps_parseCustomAttributes o f value :
  keeps (report_is o f) (parseCustomAttributes (Host:=Host) value).
Proof.
  unfold parseCustomAttributes.
  repeat keeps_step.
Qed.

Lemma keeps_loadConfig o f : keeps (report_is o f) loadConfig.
Proof.
  unfold loadConfig, parseEventState.
  cbn [getInput setSecret GitHubContextProvider]. cbv zeta.
  repeat first
    [ apply keeps_getInput | apply keeps_setSecret
    | apply keeps_parseCustomAttributes
    | keeps_step ].
Qed.

Lemma keeps_unchanged {S A} (P : S -> Prop) (m : M S A) :
  (forall s, snd (m s) = s) -> keeps P m.
Proof. intros Hm s Hs. by rewrite Hm. Qed.

Lemma keeps_collectAttributes o f config :
  keeps (report_is o f) (Attributes.collectAttributes config).
Proof.
  unfold Attributes.collectAttributes.
  cbn [getRepository getWorkflow getCommit getActor getEvent GitHubContextProvider].
  cbv zeta.
  repeat first
    [ apply keeps_unchanged; intros h; unfold GitHub_getRepository;
      by destruct (gh_repo (host_github h)) as [[? ?]|]
    | keeps_step ].
Qed.

(** The part of a state of [run] that belongs to the hosting job. *)
Lemma keeps_on_host {A} (P : Host -> Prop) (m : M Host A) :
  keeps P m -> keeps (fun st : RunState N => P (st_host st)) (on_host m).
Proof.
  intros Hm st Hst. unfold on_host. specialize (Hm (st_host st) Hst).
  by destruct (m (st_host st)).
Qed.

Lemma keeps_on_net {A} (P : Host -> Prop) (m : M N A) :
  keeps (fun st : RunState N => P (st_host st)) (on_net m).
Proof. intros st Hst. unfold on_net. by destruct (m (st_net st)). Qed.

Lemma keeps_on_tokens {A} (P : Host -> Prop) (m : M (TokenManager * N) A) :
  keeps (fun st : RunState N => P (st_host st)) (on_tokens m).
Proof.
  intros st Hst. unfold on_tokens.
  by destruct (m (st_tokens st, st_net st)) as [r [t n]].
Qed.

Lemma keeps_withRetry_run {T} (P : Host -> Prop) (operation : M (RunState N) T)
    (config : RetryConfig) :
  keeps (fun st : RunState N => P (st_host st)) operation ->
  keeps (fun st : RunState N => P (st_host st)) (withRetry operation config).
Proof.
  intros Hop. apply keeps_withRetry; [done| |].
  - intros st Hst. cbn. by destruct (Math_random (st_net st)).
  - by intros ms st Hst.
Qed.

Lemma keeps_send_event (P : Host -> Prop) apiClient state config attrs accessToken :
  keeps (fun st : RunState N => P (st_host st))
    (send_event apiClient state config attrs accessToken).
Proof.
  unfold send_event. cbv zeta.
  repeat first
    [ apply keeps_withRetry_run; apply keeps_on_net
    | keeps_step ].
Qed.

(** The statements of the [try] block that come before the outputs. *)
Lemma run_try_outcome (st : RunState N) :
  match run_try Last9ApiClient st with
  | (inl _, st') =>
      report_is (host_outputs (st_host st)) (host_failed (st_host st)) (st_host st')
  | (inr _, st') =>
      exists startTimestamp stopTimestamp,
        report_is
          (host_outputs (st_host st) ++
           ("success", "true") :: reported "start_timestamp" startTimestamp ++
           reported "stop_timestamp" stopTimestamp)
          (host_failed (st_host st)) (st_host st')
  end.
Proof.
  set (P := fun st' : RunState N =>
              report_is (host_outputs (st_host st)) (host_failed (st_host st))
                (st_host st')).
  set (Q := fun out : Outcome (RunState N) unit =>
              match out with
              | (inl _, st') => P st'
              | (inr _, st') =>
                  exists startTimestamp stopTimestamp,
                    report_is
                      (host_outputs (st_host st) ++
                       ("success", "true")
                       :: reported "start_timestamp" startTimestamp ++
                       reported "stop_timestamp" stopTimestamp)
                      (host_failed (st_host st)) (st_host st')
              end).
  change (Q (run_try Last9ApiClient st)).
  assert (Hthrow : forall e st', P st' -> Q (inl e, st')) by done.
  unfold run_try.
  (* Load configuration *)
  apply (bind_outcome P); [|done|done|intros config st1 Hst1].
  { apply keeps_on_host, keeps_loadConfig. }
  (* Collect attributes *)
  apply (bind_outcome P); [|done|done|intros attrs st2 Hst2].
  { apply keeps_on_host, keeps_collectAttributes. }
  (* Get access token *)
  apply (bind_outcome P); [|done|done|intros accessToken st3 Hst3].
  { apply keeps_withRetry_run, keeps_on_tokens. }
  (* Send start event if needed *)
  apply (bind_outcome P); [|done|done|intros startTimestamp st4 Hst4].
  { destruct (eventState config);
      first [apply keeps_send_event | apply keeps_ret]. }
  (* Send stop event if needed *)
  apply (bind_outcome P); [|done|done|intros stopTimestamp st5 Hst5].
  { destruct (eventState config);
      first [apply keeps_send_event | apply keeps_ret]. }
  (* Set outputs *)
  unfold P, report_is in Hst5. destruct Hst5 as [Hout Hfailed].
  unfold Q, reported, report_is.
  destruct (opt_truthy startTimestamp) eqn:Hstart,
           (opt_truthy stopTimestamp) eqn:Hstop;
    cbn; exists startTimestamp, stopTimestamp; rewrite Hstart, Hstop, Hout.
  all: split; [|done]; by rewrite <- ?app_assoc, ?app_nil_r.
Qed.

(** C1, as the code has it.  A run reports in one of two ways.  When a
    statement of the [try] block throws, at the token exchange or at a
    send, also at the stop send that follows a successful start send, the
    run is marked as failed and the one output set is [success = false]:
    no timestamp is reported.  When the block completes, the outputs are
    [success = true] and then the timestamps of the events sent. *)
Theorem run_reports (host : Host) (net : N) :
  host_outputs host = [] ->
  host_failed host = None ->
  let final := st_host (run Last9ApiClient host net) in
  match run_try Last9ApiClient (initial host net) with
  | (inl error, _) =>
      is_Some (host_failed final) /\
      host_outputs final = [("success", "false")]
  | (inr _, _) =>
      host_failed final = None /\
      exists startTimestamp stopTimestamp,
        host_outputs final
        = ("success", "true") :: reported "start_timestamp" startTimestamp ++
          reported "stop_timestamp" stopTimestamp
  end.
Proof.
  intros Hout Hfailed final. subst final. unfold run, try_catch.
  pose proof (run_try_outcome (initial host net)) as Htry.
  destruct (run_try Last9ApiClient (initial host net)) as [[error|[]] st'].
  - destruct Htry as [Hout' Hfailed']. cbn in Hout', Hfailed'.
    cbn. rewrite Hout', Hout. split; [eauto | done].
  - destruct Htry as (startTimestamp & stopTimestamp & Hout' & Hfailed').
    cbn in Hout', Hfailed'. cbn [snd]. rewrite Hfailed', Hfailed, Hout'.
    split; [done|]. exists startTimestamp, stopTimestamp. by rewrite Hout.
Qed.

(** The result of [loadConfig] does not depend on the input [env]. *)
Lemma agrees_ret {S A} (R : S -> S -> Prop) (a : A) : agrees R (ret a).
Proof. by intros s1 s2 HR. Qed.

Lemma agrees_throw {S A} (R : S -> S -> Prop) (e : Thrown) :
  agrees R (@throw S A e).
Proof. by intros s1 s2 HR. Qed.

Lemma agrees_bind {S A B} (R : S -> S -> Prop) (m : M S A) (k : A -> M S B) :
  agrees R m -> (forall a, agrees R (k a)) -> agrees R (bind m k).
Proof.
  intros Hm Hk s1 s2 HR. unfold bind. destruct (Hm s1 s2 HR) as [Hfst Hsnd].
  destruct (m s1) as [[e1|a1] s1'], (m s2) as [[e2|a2] s2'];
    cbn in Hfst, Hsnd; try discriminate.
  - injection Hfst as ->. done.
  - injection Hfst as ->. by apply Hk.
Qed.

Lemma agrees_getInput name required :
  name <> "env" -> agrees same_but_env (GitHub_getInput name required).
Proof.
  intros Hname h1 h2 HR. unfold GitHub_getInput, core_getInput.
  destruct HR as (Hinputs & HR). rewrite (Hinputs name Hname).
  destruct (required && negb (str_truthy (default EmptyString (host_inputs h2 !! name)))).
  - done.
  - by destruct (required && negb (str_truthy _)).
Qed.

Lemma agrees_setSecret value : agrees same_but_env (core_setSecret value).
Proof.
  intros h1 h2 (Hinputs & Hgithub & Houtputs & Hsecrets & Hfailed).
  split; [done|]. unfold same_but_env. cbn. by rewrite Hsecrets.
Qed.

Lemma loadConfig_ignores_env (h1 h2 : Host) :
  same_but_env h1 h2 -> fst (loadConfig h1) = fst (loadConfig h2).
Proof.
  intros HR. cut (agrees same_but_env loadConfig).
  { intros Hagrees. exact (proj1 (Hagrees h1 h2 HR)). }
  clear h1 h2 HR.
  unfold loadConfig, parseEventState, parseCustomAttributes.
  cbn [getInput setSecret GitHubContextProvider]. cbv zeta.
  repeat first
    [ apply agrees_getInput; discriminate
    | apply agrees_setSecret
    | apply agrees_ret | apply agrees_throw
    | apply agrees_bind; [|intros ?]
    | match goal with
      | |- agrees _ (if ?c then _ else _) => destruct c
      | |- agrees _ (match ?x with _ => _ end) => destruct x
      end ].
Qed.

End RunFacts.

(** *** The action on scripted worlds *)

Section RunExamples.

Import Config GitHub Main Sim.

(** A run with [event_state: both] in which the token exchange and the
    start send succeed and the stop send is answered with 503 at each of
    its three attempts: the run is marked as failed, [success] is set to
    [false], and [start_timestamp] is not set. *)
Lemma run_fails_after_start_without_timestamp :
  let final := run_sim job_both stop_fails in
  hd_error (sends stop_fails) = Some accepted /\
  map event_state (sent (st_net final)) = [start; stop; stop; stop] /\
  host_failed (st_host final)
  = Some "ServerError: Service unavailable (SERVER_ERROR)" /\
  In ("success", "false") (host_outputs (st_host final)) /\
  ~ (exists value, In ("start_timestamp", value) (host_outputs (st_host final))).
Proof.
  intros final.
  assert (Hout : host_outputs (st_host final) = [("success", "false")])
    by (vm_compute; reflexivity).
  split; [reflexivity|]. split; [vm_compute; reflexivity|].
  split; [vm_compute; reflexivity|]. rewrite Hout.
  split; [by left|]. intros (value & [Heq|[]]). discriminate Heq.
Qed.

Lemma run_reports_witness :
  host_outputs job_both = [] /\
  host_failed job_both = None /\
  let final := st_host (run_sim job_both stop_fails) in
  match @run_try sim_builtins World sim_runtime (fun _ => sim_client)
          (@initial World job_both stop_fails) with
  | (inl error, _) =>
      is_Some (host_failed final) /\
      host_outputs final = [("success", "false")]
  | (inr _, _) =>
      host_failed final = None /\
      exists startTimestamp stopTimestamp,
        host_outputs final
        = ("success", "true") :: reported "start_timestamp" startTimestamp ++
          reported "stop_timestamp" stopTimestamp
  end.
Proof.
  split; [reflexivity|]. split; [reflexivity|].
  exact (@run_reports sim_builtins World sim_runtime (fun _ => sim_client)
           job_both stop_fails eq_refl eq_refl).
Defined.

(** The same job in a world that accepts both events. *)
Example run_both_accepted :
  let final := run_sim job_both all_accepted in
  host_failed (st_host final) = None /\
  host_outputs (st_host final)
  = [("success", "true");
     ("start_timestamp", "2023-11-14T22:13:20.000Z");
     ("stop_timestamp", "2023-11-14T22:13:20.000Z")].
Proof. vm_compute. split; reflexivity. Qed.

(** C2 on the code.  With [refresh_token] and [org_slug] set and no input
    [env], [loadConfig] returns a configuration; [run] goes on to exchange
    the token and to send the event, whose attribute [env] is
    [undefined], and reports success. *)
Theorem loadConfig_accepts_missing_env :
  host_inputs job_without_env !! "env" = None /\
  fst (@loadConfig sim_builtins Host GitHubContextProvider job_without_env)
  = inr {| apiBaseUrl := "https://app.last9.io";
           orgSlug := "acme";
           refreshToken := "refresh-1";
           dataSourceName := None;
           eventName := "deployment";
           eventState := state_stop;
           includeGitHubAttributes := true;
           customAttributes := ∅;
           maxRetryAttempts := of_Z 3;
           retryBackoffMs := of_Z 1000;
           maxRetryBackoffMs := of_Z 30000 |} /\
  let final := run_sim job_without_env all_accepted in
  exchanged (st_net final) = ["refresh-1"] /\
  map (fun event => attributes event !! "env") (sent (st_net final))
  = [Some AttrUndefined] /\
  host_failed (st_host final) = None /\
  host_outputs (st_host final)
  = [("success", "true"); ("stop_timestamp", "2023-11-14T22:13:20.000Z")].
Proof. vm_compute. repeat split; reflexivity. Qed.

End RunExamples.

(** * Further properties of the code *)

(** Case analysis on the comparisons of integers in the goal. *)
Ltac zcases :=
  repeat match goal with
         | |- context [(?a =? ?b)%Z] => destruct (Z.eqb_spec a b)
         | |- context [(?a <=? ?b)%Z] => destruct (Z.leb_spec a b)
         | |- context [(?a <? ?b)%Z] => destruct (Z.ltb_spec a b)
         end.

(** ** Errors *)

Section ErrorFacts.

Lemma str_or_nonempty (a b : string) : b <> EmptyString -> str_or a b <> EmptyString.
Proof. intros Hb. unfold str_or. by destruct a. Qed.

(** X1.  [wrapError] does not change whether a thrown value is retried:
    the wrapped error is retryable exactly when the value was a retryable
    [Last9Error].  A [Last9Error] is returned as it is, so wrapping twice is
    wrapping once; any other value becomes an [UnknownError] that is not
    retryable, carries no status code and has a message that is not
    empty. *)
Theorem wrapError_keeps_retryability (error : Thrown) (defaultMessage again : option string) :
  isRetryableError (ThrowLast9 (wrapError error defaultMessage)) = isRetryableError error /\
  wrapError (ThrowLast9 (wrapError error defaultMessage)) again
  = wrapError error defaultMessage /\
  match error with
  | ThrowLast9 e => wrapError error defaultMessage = e
  | _ =>
      name (wrapError error defaultMessage) = "UnknownError" /\
      code (wrapError error defaultMessage) = UNKNOWN_ERROR /\
      retryable (wrapError error defaultMessage) = false /\
      statusCode (wrapError error defaultMessage) = None /\
      message (wrapError error defaultMessage) <> EmptyString
  end.
Proof.
  assert (Hfallback : str_or (default EmptyString defaultMessage) "Unknown error occurred"
                      <> EmptyString)
    by (by apply str_or_nonempty).
  destruct error; cbn; repeat split; try done.
  by apply str_or_nonempty.
Qed.

End ErrorFacts.

(** ** HTTP utilities *)

Section HttpExtras.

Import Http.

Context `{Builtins}.

(** X2.  The error that [createHttpError] makes of a status is retryable
    exactly for 408, 429 and every status from 500 on.  This is what
    [isRetryableStatus] says except at 408 and from 600 on, where
    [isRetryableStatus] is false.  The error keeps the message, and carries
    the status it was made of, except that a 504 is carried as 408. *)
Theorem createHttpError_retryable_statuses (now s : Z) (msg : string)
    (ctx : option Context) :
  let error := createHttpError now s msg ctx in
  retryable error = (s =? 408) || (s =? 429) || (500 <=? s) /\
  retryable error = isRetryableStatus s || (s =? 408) || (600 <=? s) /\
  statusCode error = Some (if s =? 504 then 408 else s) /\
  message error = msg.
Proof.
  unfold createHttpError, isRetryableStatus, isServerError, isClientError,
    TOO_MANY_REQUESTS, TIMEOUT, GATEWAY_TIMEOUT.
  zcases; cbn; zcases; cbn; repeat split; try done; try lia; f_equal; lia.
Qed.

(** X3.  [createNetworkError] always makes a retryable error whose message
    is not empty: the message of the error it was given, or a default.  The
    error is a [TimeoutError], with the status 408, exactly when that
    message contains "timeout" in any letter case, and a [NetworkError]
    without status otherwise. *)
Theorem createNetworkError_retryable (error_name error_message : string) :
  let error := createNetworkError error_name error_message in
  retryable error = true /\
  message error = str_or error_message "Network error occurred" /\
  message error <> EmptyString /\
  (if includes "timeout" (toLowerCase (message error))
   then code error = TIMEOUT_ERROR /\ statusCode error = Some 408
   else code error = NETWORK_ERROR /\ statusCode error = None).
Proof.
  unfold createNetworkError.
  assert (Hmsg : str_or error_message "Network error occurred" <> EmptyString)
    by (by apply str_or_nonempty).
  destruct (includes "timeout" (toLowerCase (str_or error_message _))) eqn:Hin;
    cbn; rewrite Hin; done.
Qed.

End HttpExtras.

Section UrlFacts.

Import Http.

Context `{UrlEncoder}.

Lemma remove_trailing_slash_app (base : string) :
  remove_trailing_slash (base ++ "/") = base.
Proof.
  induction base as [|c rest IH]; [reflexivity|].
  change (String c rest ++ "/")%string with (String c (rest ++ "/")).
  cbn [remove_trailing_slash].
  destruct (rest ++ "/")%string eqn:Hrest.
  - by destruct rest.
  - by rewrite IH.
Qed.

(** X4.  For a base URL that does not end with a slash and a path that
    does not start with one, [buildUrl] joins the two with one slash, and
    gives the same URL when the base is given with a slash at its end, when
    the path is given with a slash at its start, or both.  No query string
    is added when there are no parameters. *)
Theorem buildUrl_slashes (base path : string) :
  remove_trailing_slash base = base ->
  String.prefix "/" path = false ->
  let url := (base ++ "/" ++ path)%string in
  buildUrl base path None = url /\
  buildUrl (base ++ "/") path None = url /\
  buildUrl base ("/" ++ path) None = url /\
  buildUrl (base ++ "/") ("/" ++ path) None = url /\
  buildUrl base path (Some []) = url.
Proof.
  intros Hbase Hpath url. unfold buildUrl.
  rewrite remove_trailing_slash_app, Hbase, Hpath.
  assert (String.prefix "/" ("/" ++ path) = true) as -> by (cbn; by destruct path).
  done.
Qed.

End UrlFacts.

(** ** Time utilities *)

Section TimeFacts.

Import TimeUtils.

Context `{Builtins}.

Lemma num_sub_Num (x y : Q) : exists d, num_sub (Num x) (Num y) = Num d /\ (d == x - y)%Q.
Proof. eexists. split; [reflexivity|]. apply Qred_correct. Qed.

Lemma num_mul_Num (x y : Q) : exists p, num_mul (Num x) (Num y) = Num p /\ (p == x * y)%Q.
Proof. eexists. split; [reflexivity|]. apply Qred_correct. Qed.

(** X5.  Expiry is monotone: a timestamp that [isExpired] reports as
    expired at some instant, under some buffer, is reported as expired at
    every later instant and under every larger buffer. *)
Theorem isExpired_monotone (now later : Z) (timestamp : number + string)
    (buffer larger : Q) :
  now <= later ->
  (buffer <= larger)%Q ->
  isExpired now timestamp (Some (Num buffer)) = true ->
  isExpired later timestamp (Some (Num larger)) = true.
Proof.
  intros Hnow Hbuffer. unfold isExpired, of_Z. cbn [default from_option id].
  match goal with |- context [num_sub ?expiryTime _] => destruct expiryTime as [x|] end;
    [|by cbn].
  destruct (num_mul_Num buffer (inject_Z 1000)) as (p & -> & Hp).
  destruct (num_mul_Num larger (inject_Z 1000)) as (p' & -> & Hp').
  destruct (num_sub_Num x p) as (d & -> & Hd).
  destruct (num_sub_Num x p') as (d' & -> & Hd').
  rewrite !num_le_true.
  rewrite Zle_Qle in Hnow.
  intros Hle. rewrite Hd' , Hp'. rewrite Hd, Hp in Hle.
  change (inject_Z 1000) with 1000%Q in *. lra.
Qed.

(** X6.  A timestamp that is no date is never expired: for a string that
    [Date] cannot parse, for the number NaN and under a buffer that is NaN,
    [isExpired] is false at every instant. *)
Theorem isExpired_invalid_never (now : Z) (text : string) (timestamp : number + string)
    (buffer : option number) :
  Date_parse text = NaN ->
  isExpired now (inr text) buffer = false /\
  isExpired now (inl NaN) buffer = false /\
  isExpired now timestamp (Some NaN) = false.
Proof.
  intros Hdate. unfold isExpired, getTime. rewrite Hdate. cbn.
  split; [done|]. split; [done|].
  by destruct timestamp as [[x|]|t]; cbn; [| |destruct (Date_parse t)].
Qed.




End TimeFacts.

(** ** The retry loop, for any operation *)

Section RetryExtras.

Import Retry.

Context {S T : Type} `{Runtime S}.
Variable operation : M S T.
Variable config : RetryConfig.







Lemma withRetry_loop_provenance (fuel : nat) :
  forall attempt lastError s out log,
    withRetry_loop operation config fuel attempt lastError s = Some (out, log) ->
    match out with
    | (inr result, s') => exists s0, operation s0 = (inr result, s')
    | (inl error, s') =>
        (error = lastError /\ s' = s /\ log = []) \/
        (exists s0 s1, operation s0 = (inl error, s1)) \/
        (exists s0 thrown,
            operation s0 = (inl thrown, s') /\ read_message thrown = inl error)
    end.
Proof.
  induction fuel as [|fuel IH]; intros attempt lastError s out log Hrun; [discriminate|].
  cbn [withRetry_loop] in Hrun.
  destruct (num_lt (of_Z attempt) (maxAttempts config)).
  2:{ injection Hrun as <- <-. by left. }
  destruct (operation s) as [[error|result] s1] eqn:Hop.
  2:{ injection Hrun as <- <-. eauto. }
  destruct (num_eq (of_Z attempt) _).
  { injection Hrun as <- <-. right. left. eauto. }
  destruct (negb (isRetryableError error)).
  { destruct (read_message error) as [type_error|msg] eqn:Hmsg; injection Hrun as <- <-.
    - right. right. eauto.
    - right. left. eauto. }
  destruct (Math_random s1) as [rnd s2].
  destruct (withRetry_loop _ _ fuel _ _ _) as [[out' log']|] eqn:Hrec; [|discriminate].
  injection Hrun as <- <-.
  apply IH in Hrec. destruct out' as [[error'|result'] s']; [|done].
  destruct Hrec as [(-> & _ & _)|Hrec]; [|by right].
  right. left. eauto.
Qed.

(** X11.  [withRetry] makes up no result: a value that it returns was
    returned by a call of the operation, and the state is the one that call
    left.  What it throws is [undefined] when it made no call, or a value
    that a call of the operation threw, or the [TypeError] of reading the
    [message] of a thrown [undefined] or [null]. *)
Theorem withRetry_outcome_provenance (s : S) :
  match withRetry_logged operation config s with
  | ((inr result, s'), _) => exists s0, operation s0 = (inr result, s')
  | ((inl error, s'), log) =>
      (error = ThrowUndefined /\ s' = s /\ log = []) \/
      (exists s0 s1, operation s0 = (inl error, s1)) \/
      (exists s0 thrown,
          operation s0 = (inl thrown, s') /\ read_message thrown = inl error)
  end.
Proof.
  pose proof (withRetry_logged_loop operation config s) as Hrun.
  destruct (withRetry_logged operation config s) as [out log].
  apply withRetry_loop_provenance in Hrun. by destruct out as [[error|result] s'].
Qed.

(** When the first evaluation of the loop condition fails, no call is
    made. *)
Lemma withRetry_no_call (s : S) :
  num_lt (of_Z 0) (maxAttempts config) = false ->
  withRetry_logged operation config s = ((inl ThrowUndefined, s), []).
Proof.
  intros Hcond. pose proof (withRetry_logged_loop operation config s) as Hrun.
  destruct (loop_fuel config) as [|fuel] eqn:Hfuel.
  { unfold loop_fuel in Hfuel. destruct (maxAttempts config); discriminate. }
  cbn [withRetry_loop] in Hrun. rewrite Hcond in Hrun.
  unfold exhausted in Hrun. by injection Hrun.
Qed.

End RetryExtras.

(** ** The token cache, for any API client *)

Section TokenExtras.

Import Token.

Context `{Builtins} {S : Type} `{Runtime S} `{ApiClient S}.

(** X12.  A call of [getAccessToken] reads and writes one entry of the
    cache, the one under the key of the refresh token it is given: every
    other entry is as it was, and so is the expiry buffer, whether the call
    returns or throws. *)
Theorem getAccessToken_touches_one_key (this : TokenManager) (refreshToken : string)
    (s : S) :
  let this' := snd (fst (fst (getAccessToken_logged this refreshToken s))) in
  delete (getCacheKey refreshToken) (cache this')
  = delete (getCacheKey refreshToken) (cache this) /\
  (forall key, key <> getCacheKey refreshToken -> cache this' !! key = cache this !! key) /\
  expiryBufferSeconds this' = expiryBufferSeconds this.
Proof.
  intros this'.
  assert (Hdelete : delete (getCacheKey refreshToken) (cache this')
                    = delete (getCacheKey refreshToken) (cache this) /\
                    expiryBufferSeconds this' = expiryBufferSeconds this).
  { subst this'. unfold getAccessToken_logged.
    destruct (valid_cached _ _ _); [done|].
    destruct (refreshAccessToken refreshToken s) as [[error|resp] s1].
    - cbn. by rewrite delete_delete_eq.
    - cbn [expiresAt].
      destruct (new_Date (num_mul (expires_at resp) (of_Z 1000))); cbn.
      + by rewrite delete_insert_eq.
      + by rewrite delete_delete_eq, delete_insert_eq. }
  destruct Hdelete as [Hdelete Hbuffer].
  split; [done|]. split; [|done].
  intros key Hkey.
  rewrite <- (lookup_delete_ne (cache this') (getCacheKey refreshToken) key) by done.
  rewrite Hdelete. by rewrite lookup_delete_ne.
Qed.

(** X13.  After a call of [getAccessToken] the cache agrees with what the
    call did: when it returns a token, the entry under the key of the
    refresh token holds that token; when it throws, there is no entry under
    that key, one exchange was attempted, and what is thrown is a
    [TokenExchangeError], which is not retryable. *)
Theorem getAccessToken_postcondition (this : TokenManager) (refreshToken : string)
    (s : S) :
  match getAccessToken_logged this refreshToken s with
  | (inr token, this', _, _) =>
      exists cached,
        cache this' !! getCacheKey refreshToken = Some cached /\
        accessToken cached = token
  | (inl error, this', _, log) =>
      cache this' !! getCacheKey refreshToken = None /\
      log = [Exchange refreshToken (fst (refreshAccessToken refreshToken s))] /\
      exists wrapped,
        error = ThrowLast9 wrapped /\
        code wrapped = TOKEN_EXCHANGE_ERROR /\
        retryable wrapped = false
  end.
Proof.
  unfold getAccessToken_logged.
  destruct (valid_cached _ _ _) as [cached|] eqn:Hvalid.
  { exists cached. split; [|done]. unfold valid_cached in Hvalid.
    destruct (cache this !! getCacheKey refreshToken); [|done].
    by destruct (negb _); [injection Hvalid as ->|]. }
  destruct (refreshAccessToken refreshToken s) as [[error|resp] s1]; cbn [fst].
  - cbn. rewrite lookup_delete_eq. split; [done|]. split; [done|].
    eexists. split; [reflexivity|]. by destruct error.
  - cbn [expiresAt].
    destruct (new_Date (num_mul (expires_at resp) (of_Z 1000))); cbn.
    + rewrite lookup_insert_eq. eauto.
    + rewrite lookup_delete_eq. split; [done|]. split; [done|]. eauto.
Qed.

Lemma expiring_new (config : option TokenManagerConfig) :
  expiring (new_TokenManager config).
Proof.
  split; [|apply map_Forall_empty]. cbn.
  destruct (config ≫= config_expiryBufferSeconds) as [[q|]|]; try done.
  unfold num_or. by destruct (num_truthy (Num q)).
Qed.

Lemma expiring_valid_until (this : TokenManager) (key : string) :
  expiring this ->
  exists limit : Z, forall now, limit <= now -> valid_cached this key now = None.
Proof.
  intros [Hbuffer Hdates]. unfold valid_cached.
  destruct (cache this !! key) as [cached|] eqn:Hcached; [|by exists 0].
  apply Hdates in Hcached. cbn in Hcached.
  destruct (expiresAt cached) as [e|]; [|done].
  destruct (expiryBufferSeconds this) as [b|] eqn:Hb; [|done].
  unfold isTokenExpired, TimeUtils.isExpired. rewrite Hb.
  cbn [default from_option id]. unfold getTime, num_div, Math_floor, of_Z.
  change (lift2 Qdiv (Num e) (Num (inject_Z 1000)))
    with (Num (Qred (e / inject_Z 1000))).
  cbv iota beta.
  set (seconds := Qfloor (Qred (e / inject_Z 1000))).
  destruct (num_mul_Num (inject_Z seconds) (inject_Z 1000)) as (p & -> & Hp).
  destruct (num_mul_Num b (inject_Z 1000)) as (p' & -> & Hp').
  destruct (num_sub_Num p p') as (d & -> & Hd).
  exists (Qceiling d). intros now Hnow.
  assert (num_le (Num d) (Num (inject_Z now)) = true) as ->; [|done].
  apply num_le_true. rewrite Zle_Qle in Hnow.
  eapply Qle_trans; [apply Qle_ceiling | exact Hnow].
Qed.

(** X14.  Every token in the cache expires.  When the buffer is a number
    and every entry has a valid expiry date, which holds for a new manager,
    a call of [getAccessToken] leaves it so: a response without a valid
    [expires_at] is not kept.  Then for every key there is an instant from
    which the entry under the key is no longer served from the cache. *)
Theorem getAccessToken_keeps_expiring (this : TokenManager) (refreshToken : string)
    (s : S) :
  expiring this ->
  let this' := snd (fst (fst (getAccessToken_logged this refreshToken s))) in
  expiring this' /\
  forall key, exists limit : Z,
    forall now, limit <= now -> valid_cached this' key now = None.
Proof.
  intros Hthis this'.
  assert (Hthis' : expiring this').
  { subst this'. destruct Hthis as [Hbuffer Hdates]. unfold getAccessToken_logged.
    destruct (valid_cached _ _ _); [done|].
    destruct (refreshAccessToken refreshToken s) as [[error|resp] s1].
    - split; [done|]. cbn. by apply map_Forall_delete.
    - cbn [expiresAt].
      destruct (new_Date (num_mul (expires_at resp) (of_Z 1000))) eqn:Hdate; cbn.
      + split; [done|]. cbn. by apply map_Forall_insert_2.
      + split; [done|]. cbn. rewrite delete_insert_eq. by apply map_Forall_delete. }
  split; [done|]. intros key. by apply expiring_valid_until.
Qed.

(** X15.  After [clearCache] the next call of [getAccessToken] exchanges
    the refresh token, whatever the clock shows: the cache is empty, the
    expiry buffer is kept, and the call makes one call of
    [refreshAccessToken]. *)
Theorem clearCache_forces_exchange (this : TokenManager) (refreshToken : string)
    (s : S) :
  cache (clearCache this) = ∅ /\
  expiryBufferSeconds (clearCache this) = expiryBufferSeconds this /\
  snd (getAccessToken_logged (clearCache this) refreshToken s)
  = [Exchange refreshToken (fst (refreshAccessToken refreshToken s))].
Proof.
  split; [done|]. split; [done|].
  unfold getAccessToken_logged, valid_cached. cbn [cache clearCache with_cache].
  rewrite lookup_empty.
  destruct (refreshAccessToken refreshToken s) as [[error|resp] s1]; [done|].
  cbn [expiresAt]. by destruct (new_Date (num_mul (expires_at resp) (of_Z 1000))).
Qed.

Lemma num_truthy_of_Z (z : Z) : num_truthy (of_Z z) = negb (z =? 0).
Proof. by destruct z. Qed.

(** X16.  The expiry buffer cannot be switched off.  A manager made with a
    configured buffer of [buffer] seconds treats a token that expires at
    the second [e] as expired from [buffer] seconds before [e] on, except
    that a configured buffer of 0, like a buffer that is NaN or absent,
    counts as 300 seconds.  The cache of a new manager is empty. *)
Theorem new_TokenManager_buffer (buffer e now : Z) :
  let configured :=
    new_TokenManager (Some {| config_expiryBufferSeconds := Some (of_Z buffer) |}) in
  let invalid :=
    new_TokenManager (Some {| config_expiryBufferSeconds := Some NaN |}) in
  let unconfigured := new_TokenManager None in
  isTokenExpired configured now (of_Z e)
  = ((e - (if buffer =? 0 then 300 else buffer)) * 1000 <=? now) /\
  isTokenExpired invalid now (of_Z e) = ((e - 300) * 1000 <=? now) /\
  isTokenExpired unconfigured now (of_Z e) = ((e - 300) * 1000 <=? now) /\
  cache configured = ∅.
Proof.
  cbv zeta. split; [|split; [|split]]; try done.
  - apply isTokenExpired_seconds. cbn. unfold num_or.
    rewrite num_truthy_of_Z. by destruct (buffer =? 0).
  - by apply isTokenExpired_seconds.
  - by apply isTokenExpired_seconds.
Qed.

End TokenExtras.

(** ** Configuration *)

Section MonadFacts.

Context {S : Type}.

Lemma bind_returns {A B} (m : M S A) (k : A -> M S B) (s s' : S) (a : A) :
  m s = (inr a, s') -> bind m k s = k a s'.
Proof. intros Hm. unfold bind. by rewrite Hm. Qed.

Lemma bind_throws {A B} (m : M S A) (k : A -> M S B) (s s' : S) (e : Thrown) :
  m s = (inl e, s') -> bind m k s = (inl e, s').
Proof. intros Hm. unfold bind. by rewrite Hm. Qed.

Lemma throws_only_ret {A} (P : Thrown -> Prop) (a : A) : throws_only P (@ret S A a).
Proof. by intros s. Qed.

Lemma throws_only_throw {A} (P : Thrown -> Prop) (e : Thrown) :
  P e -> throws_only P (@throw S A e).
Proof. by intros He s. Qed.

Lemma throws_only_bind {A B} (P : Thrown -> Prop) (m : M S A) (k : A -> M S B) :
  throws_only P m -> (forall a, throws_only P (k a)) -> throws_only P (bind m k).
Proof.
  intros Hm Hk s. unfold bind. specialize (Hm s).
  destruct (m s) as [[e|a] s']; [done|]. apply Hk.
Qed.

End MonadFacts.

Section ConfigFacts.

Import Config GitHub.

Context `{Builtins}.

Lemma trim_empty_falsy (value : string) :
  negb (str_truthy value) || String.eqb (trim value) EmptyString
  = String.eqb (trim value) EmptyString.
Proof. by destruct value. Qed.

(** What [getInput] of the GitHub provider does: it leaves the job as it
    is, returns the trimmed value of the input, and throws an
    [InvalidInputError] when a required input is empty once trimmed. *)
Lemma GitHub_getInput_cases (name : string) (required : bool) (h : Host) :
  let value := trim (default EmptyString (host_inputs h !! name)) in
  if required && negb (str_truthy value)
  then exists msg,
         GitHub_getInput name required h
         = (inl (ThrowLast9 (InvalidInputError msg None)), h)
  else GitHub_getInput name required h = (inr value, h).
Proof.
  unfold GitHub_getInput, core_getInput.
  destruct (default EmptyString (host_inputs h !! name)) as [|c rest] eqn:Hval.
  - destruct required; cbn; eauto.
  - rewrite andb_false_r.
    destruct (required && negb (str_truthy (trim (String c rest)))); eauto.
Qed.

Lemma GitHub_getInput_unchanged (name : string) (required : bool) (h : Host) :
  snd (GitHub_getInput name required h) = h.
Proof.
  pose proof (GitHub_getInput_cases name required h) as Hcases. cbv zeta in Hcases.
  destruct (required && negb (str_truthy _)).
  - destruct Hcases as [msg ->]. done.
  - by rewrite Hcases.
Qed.

Lemma throws_only_getInput (name : string) (required : bool) :
  throws_only config_error (GitHub_getInput name required).
Proof.
  intros h. pose proof (GitHub_getInput_cases name required h) as Hcases.
  cbv zeta in Hcases. destruct (required && negb (str_truthy _)).
  - destruct Hcases as [msg ->]. eexists. split; [reflexivity|]. split; [by left|done].
  - by rewrite Hcases.
Qed.

Lemma parseEventState_unchanged (value : string) (h : Host) :
  snd (parseEventState value h) = h.
Proof.
  unfold parseEventState.
  by repeat match goal with |- context [if ?c then _ else _] => destruct c end.
Qed.

Lemma throws_only_parseEventState (value : string) :
  throws_only config_error (parseEventState (Host:=Host) value).
Proof.
  intros h. unfold parseEventState.
  repeat match goal with |- context [if ?c then _ else _] => destruct c end; try done.
  eexists. split; [reflexivity|]. split; [by left|done].
Qed.

Lemma validate_scalars (entries : list (string * Json)) :
  match validate entries with
  | inr vs =>
      Forall2 (fun entry attribute =>
                 attribute.1 = entry.1 /\ scalar entry.2 = Some attribute.2)
        entries vs
  | inl error =>
      name error = "ConfigError" /\ code error = CONFIG_ERROR /\ retryable error = false
  end.
Proof.
  induction entries as [|[key val] rest IH]; cbn; [constructor|].
  destruct (scalar val) as [v|] eqn:Hval; [|done].
  destruct (validate rest) as [error|vs]; [done|].
  by constructor.
Qed.

Lemma object_of_lookup {V} (entries : list (string * V)) (key : string) (v : V) :
  object_of entries !! key = Some v -> In (key, v) entries.
Proof.
  unfold object_of.
  assert (Hfold : forall acc : gmap string V,
             fold_left (fun o kv => <[kv.1 := kv.2]> o) entries acc !! key = Some v ->
             In (key, v) entries \/ acc !! key = Some v).
  { induction entries as [|[k x] rest IH]; intros acc Hlookup; [by right|].
    cbn in Hlookup. apply IH in Hlookup as [Hin|Hacc]; [left; by right|].
    cbn in Hacc. destruct (decide (k = key)) as [->|Hne].
    - rewrite lookup_insert_eq in Hacc. injection Hacc as ->. left. by left.
    - rewrite lookup_insert_ne in Hacc by done. by right. }
  intros Hlookup. apply Hfold in Hlookup as [Hin|Hempty]; [done|].
  by rewrite lookup_empty in Hempty.
Qed.

Lemma parseCustomAttributes_unchanged (value : string) (h : Host) :
  snd (parseCustomAttributes value h) = h.
Proof.
  unfold parseCustomAttributes.
  destruct (negb (str_truthy value) || String.eqb (trim value) EmptyString); [done|].
  destruct (JSON_parse value) as [syntax_error|json]; [done|].
  destruct json; try done. by destruct (validate entries).
Qed.

Lemma throws_only_parseCustomAttributes (value : string) :
  throws_only config_error (parseCustomAttributes (Host:=Host) value).
Proof.
  intros h. unfold parseCustomAttributes.
  destruct (negb (str_truthy value) || String.eqb (trim value) EmptyString); [done|].
  destruct (JSON_parse value) as [syntax_error|json].
  { cbn. eexists. split; [reflexivity|]. split; [by right|done]. }
  destruct json; try (cbn; eexists; split; [reflexivity|]; split; [by right|done]).
  pose proof (validate_scalars entries) as Hvalid.
  destruct (validate entries) as [error|vs]; [|done].
  cbn. exists error. destruct Hvalid as (_ & ? & ?). split; [done|]. split; [by right|done].
Qed.

(** X17.  What [parseCustomAttributes] returns holds scalars only: every
    attribute is an entry of the object that the input parses to, with a
    value that is a string, a number or a boolean.  An input that is empty
    or blank gives no attributes and is not parsed.  Every failure, a text
    that is not JSON, a JSON value that is not an object or an entry that
    is not a scalar, is a [ConfigError], which is not retryable.  The job
    is left as it is. *)
Theorem parseCustomAttributes_scalars (value : string) (h : Host) :
  snd (parseCustomAttributes value h) = h /\
  match fst (parseCustomAttributes value h) with
  | inr attrs =>
      (if String.eqb (trim value) EmptyString then attrs = ∅
       else exists entries, JSON_parse value = inr (JObject entries)) /\
      forall key v,
        attrs !! key = Some v ->
        v <> AttrUndefined /\
        exists entries json,
          JSON_parse value = inr (JObject entries) /\
          In (key, json) entries /\
          scalar json = Some v
  | inl thrown =>
      String.eqb (trim value) EmptyString = false /\
      exists error,
        thrown = ThrowLast9 error /\
        name error = "ConfigError" /\
        code error = CONFIG_ERROR /\
        retryable error = false
  end.
Proof.
  split; [apply parseCustomAttributes_unchanged|].
  unfold parseCustomAttributes. rewrite trim_empty_falsy.
  destruct (String.eqb (trim value) EmptyString); [by cbn|].
  destruct (JSON_parse value) as [syntax_error|json]; [cbn; eauto 10|].
  destruct json; try (cbn; eauto 10).
  pose proof (validate_scalars entries) as Hvalid.
  destruct (validate entries) as [error|vs]; cbn.
  { split; [done|]. exists error. by destruct Hvalid as (? & ? & ?). }
  split; [eauto|]. intros key v Hlookup.
  apply object_of_lookup in Hlookup.
  assert (Hentry : exists json, In (key, json) entries /\ scalar json = Some v).
  { clear -Hvalid Hlookup. induction Hvalid as [|[k j] [k' v'] ? ? [Hk Hv] ? IH];
      [done|]. cbn in Hk, Hv. destruct Hlookup as [[= -> ->]|Hin].
    - exists j. subst. split; [by left|done].
    - destruct (IH Hin) as (json & ? & ?). exists json. split; [by right|done]. }
  destruct Hentry as (json & Hin & Hscalar).
  split; [destruct json; cbn in Hscalar; congruence|]. eauto.
Qed.

Lemma throws_only_loadConfig : throws_only config_error loadConfig.
Proof.
  unfold loadConfig.
  cbn [getInput setSecret GitHubContextProvider]. cbv zeta.
  repeat first
    [ apply throws_only_getInput
    | apply throws_only_parseEventState
    | apply throws_only_parseCustomAttributes
    | apply throws_only_ret
    | apply throws_only_bind; [|intros ?]
    | by intros ? ].
Qed.

End ConfigFacts.

Section LoadConfigFacts.

Import Config GitHub.

Context `{Builtins}.

(** X18.  [loadConfig] demands the two required inputs and marks the
    refresh token as secret before it reads anything else.  When
    [refresh_token] or [org_slug] is missing, empty or blank, it throws an
    [InvalidInputError] and marks nothing.  Otherwise the trimmed refresh
    token is the one value it adds to the secrets, also when a later input
    is rejected, and a configuration that it returns holds the two trimmed
    values, neither of which is empty. *)
Theorem loadConfig_required_inputs (h : Host) :
  let token := trim (default EmptyString (host_inputs h !! "refresh_token")) in
  let slug := trim (default EmptyString (host_inputs h !! "org_slug")) in
  match loadConfig h with
  | (inr config, h') =>
      token <> EmptyString /\ slug <> EmptyString /\
      refreshToken config = token /\ orgSlug config = slug /\
      h' = with_secrets h (host_secrets h ++ [token])
  | (inl thrown, h') =>
      if str_truthy token && str_truthy slug
      then h' = with_secrets h (host_secrets h ++ [token])
      else h' = h /\ exists msg, thrown = ThrowLast9 (InvalidInputError msg None)
  end.
Proof.
  intros token slug. unfold loadConfig.
  cbn [getInput setSecret GitHubContextProvider].
  pose proof (GitHub_getInput_cases "refresh_token" true h) as Htoken.
  pose proof (GitHub_getInput_cases "org_slug" true h) as Hslug.
  cbv zeta in Htoken, Hslug. fold token in Htoken. fold slug in Hslug.
  cbn [andb] in Htoken, Hslug.
  destruct (str_truthy token) eqn:Etoken; cbn [negb andb] in Htoken |- *.
  2:{ destruct Htoken as [msg Htoken]. rewrite (bind_throws _ _ _ _ _ Htoken). eauto. }
  rewrite (bind_returns _ _ _ _ _ Htoken).
  destruct (str_truthy slug) eqn:Eslug; cbn [negb] in Hslug |- *.
  2:{ destruct Hslug as [msg Hslug]. rewrite (bind_throws _ _ _ _ _ Hslug). eauto. }
  rewrite (bind_returns _ _ _ _ _ Hslug).
  unfold bind at 1, core_setSecret, act.
  set (h1 := with_secrets h (host_secrets h ++ [token])).
  set (Q := fun out : Outcome Host ActionConfig =>
              match out with
              | (inr config, h') =>
                  refreshToken config = token /\ orgSlug config = slug /\ h' = h1
              | (inl _, h') => h' = h1
              end).
  match goal with
  | |- match ?out with _ => _ end => enough (HQ : Q out)
  end.
  { destruct (bind _ _ h1) as [[thrown|config] h']; [exact HQ|].
    destruct HQ as (? & ? & ?). repeat split; try done.
    - by destruct token.
    - by destruct slug. }
  repeat (apply (bind_outcome (fun h' => h' = h1));
          [ apply keeps_unchanged; intros;
            first [ apply GitHub_getInput_unchanged
                  | apply parseEventState_unchanged
                  | apply parseCustomAttributes_unchanged ]
          | done | done | intros ? ? -> ]).
  done.
Qed.

End LoadConfigFacts.

(** ** Attributes *)

Section AttributeFacts.

Import Attributes.



Section AnyProvider.

Context {Host : Type} `{ContextProvider Host}.


End AnyProvider.

Import GitHub.


End AttributeFacts.

(** ** The action, for any API client *)

Section RunExtras.

Import Config GitHub Token Retry Client Main.

Context `{Builtins} {N : Type} `{Runtime N}.
Variable Last9ApiClient : Last9ClientConfig -> ApiClient N.

Lemma collectAttributes_returns (config : Attributes.AttributeConfig) (h : Host) :
  exists attrs, Attributes.collectAttributes config h = (inr attrs, h).
Proof.
  unfold Attributes.collectAttributes. cbv zeta.
  cbn [getRepository getWorkflow getCommit getActor getEvent GitHubContextProvider].
  unfold bind at 1. destruct (Attributes.includeGitHub config); [|cbn; eauto].
  unfold try_catch, bind, GitHub_getRepository, GitHub_getWorkflow, GitHub_getCommit,
    GitHub_getActor, GitHub_getEvent, reads.
  destruct (gh_repo (host_github h)) as [[owner repo]|]; cbn; eauto.
Qed.

Lemma on_host_loadConfig (host : Host) (tokens : TokenManager) (net : N)
    (result : Thrown + ActionConfig) (h1 : Host) :
  loadConfig host = (result, h1) ->
  on_host loadConfig {| st_host := host; st_tokens := tokens; st_net := net |}
  = (result, {| st_host := h1; st_tokens := tokens; st_net := net |}) /\
  host_outputs h1 = host_outputs host /\
  host_failed h1 = host_failed host.
Proof.
  intros Hload. unfold on_host. cbn [st_host st_tokens st_net]. rewrite Hload.
  split; [done|].
  pose proof (keeps_loadConfig (host_outputs host) (host_failed host) host) as Hkeeps.
  rewrite Hload in Hkeeps. by apply Hkeeps.
Qed.

(** X21.  A run whose configuration cannot be loaded makes no call over
    the network and leaves the token manager as it was.  What [loadConfig]
    throws is an [InvalidInputError] or a [ConfigError]; the run is marked
    as failed with the name, the message and the code of that error, and
    the one output it sets is [success = false]. *)
Theorem run_stops_at_config_error (host : Host) (net : N) (thrown : Thrown)
    (h1 : Host) :
  loadConfig host = (inl thrown, h1) ->
  let final := run Last9ApiClient host net in
  st_net final = net /\
  st_tokens final = st_tokens (initial host net) /\
  host_outputs (st_host final) = host_outputs host ++ [("success", "false")] /\
  exists error,
    thrown = ThrowLast9 error /\
    (code error = INVALID_INPUT \/ code error = CONFIG_ERROR) /\
    host_failed (st_host final) = Some (failure_message error).
Proof.
  intros Hload final.
  pose proof (throws_only_loadConfig host) as Hthrown. rewrite Hload in Hthrown.
  destruct Hthrown as (error & -> & Hcode & _).
  destruct (on_host_loadConfig host (st_tokens (initial host net)) net _ _ Hload)
    as (Hrun & Houtputs & _).
  subst final. unfold run, try_catch, run_try.
  change (initial host net)
    with {| st_host := host; st_tokens := st_tokens (initial host net); st_net := net |}.
  rewrite (bind_throws _ _ _ _ _ Hrun). cbn.
  rewrite Houtputs. eauto 10.
Qed.

(** X22.  A run with no attempt allowed: when [max_retry_attempts] is read
    as 0, as a negative number or as NaN, which is what [parseInt] makes of
    a text without digits, the token exchange is never called and no event
    is sent.  The run fails with the message of an unknown error, since
    what the retry loop throws is [undefined]. *)
Theorem run_without_attempts (host : Host) (net : N) (config : ActionConfig)
    (h1 : Host) :
  loadConfig host = (inr config, h1) ->
  maxRetryAttempts config = NaN \/
  (exists m, m <= 0 /\ maxRetryAttempts config = of_Z m) ->
  let final := run Last9ApiClient host net in
  st_net final = net /\
  st_tokens final = st_tokens (initial host net) /\
  host_failed (st_host final)
  = Some "UnknownError: Unknown error occurred (UNKNOWN_ERROR)" /\
  host_outputs (st_host final) = host_outputs host ++ [("success", "false")].
Proof.
  intros Hload Hnone final.
  assert (Hattempts : num_lt (of_Z 0) (maxRetryAttempts config) = false).
  { destruct Hnone as [->|(m & Hm & ->)]; [done|].
    rewrite num_lt_of_Z. apply Z.ltb_ge. lia. }
  destruct (on_host_loadConfig host (st_tokens (initial host net)) net _ _ Hload)
    as (Hrun & Houtputs & _).
  set (st1 := {| st_host := h1; st_tokens := st_tokens (initial host net);
                 st_net := net |}) in *.
  assert (Htry : run_try Last9ApiClient (initial host net) = (inl ThrowUndefined, st1)).
  { unfold run_try.
    change (initial host net)
      with {| st_host := host; st_tokens := st_tokens (initial host net);
              st_net := net |}.
    rewrite (bind_returns _ _ _ _ _ Hrun).
    match goal with
    | |- context [on_host (Attributes.collectAttributes ?c)] =>
        destruct (collectAttributes_returns c h1) as [attrs Hattrs];
        rewrite (bind_returns (on_host (Attributes.collectAttributes c)) _ st1 st1 attrs)
          by (unfold on_host; cbn [st_host st1]; by rewrite Hattrs)
    end.
    apply bind_throws. unfold withRetry. by rewrite withRetry_no_call. }
  subst final. unfold run, try_catch. rewrite Htry.
  cbn. by rewrite Houtputs.
Qed.

(** The outcome of the [try] block, with the phases that the configuration
    asks for. *)
Lemma run_try_phases (host : Host) (tokens : TokenManager) (net : N)
    (config : ActionConfig) (h1 : Host) :
  loadConfig host = (inr config, h1) ->
  match run_try Last9ApiClient
          {| st_host := host; st_tokens := tokens; st_net := net |} with
  | (inl _, st') => report_is (host_outputs host) (host_failed host) (st_host st')
  | (inr _, st') =>
      exists startTimestamp stopTimestamp,
        report_is
          (host_outputs host ++
           ("success", "true") :: reported "start_timestamp" startTimestamp ++
           reported "stop_timestamp" stopTimestamp)
          (host_failed host) (st_host st') /\
        (eventState config = state_stop -> startTimestamp = None) /\
        (eventState config = state_start -> stopTimestamp = None)
  end.
Proof.
  intros Hload.
  destruct (on_host_loadConfig host tokens net _ _ Hload) as (Hrun & Houtputs & Hfailed).
  set (P := fun st' : RunState N =>
              report_is (host_outputs host) (host_failed host) (st_host st')).
  set (Q := fun out : Outcome (RunState N) unit =>
              match out with
              | (inl _, st') => P st'
              | (inr _, st') =>
                  exists startTimestamp stopTimestamp,
                    report_is
                      (host_outputs host ++
                       ("success", "true")
                       :: reported "start_timestamp" startTimestamp ++
                       reported "stop_timestamp" stopTimestamp)
                      (host_failed host) (st_host st') /\
                    (eventState config = state_stop -> startTimestamp = None) /\
                    (eventState config = state_start -> stopTimestamp = None)
              end).
  change (Q (run_try Last9ApiClient
               {| st_host := host; st_tokens := tokens; st_net := net |})).
  assert (Hthrow : forall e st', P st' -> Q (inl e, st')) by done.
  assert (Hst1 : P {| st_host := h1; st_tokens := tokens; st_net := net |}) by done.
  assert (Hend : forall startTimestamp stopTimestamp st5,
             (eventState config = state_stop -> startTimestamp = None) ->
             (eventState config = state_start -> stopTimestamp = None) ->
             P st5 ->
             Q (bind (on_host (setOutput "success" "true"))
                  (fun _ =>
                     bind (if opt_truthy startTimestamp
                           then on_host (setOutput "start_timestamp"
                                           (default EmptyString startTimestamp))
                           else ret tt)
                       (fun _ =>
                          if opt_truthy stopTimestamp
                          then on_host (setOutput "stop_timestamp"
                                          (default EmptyString stopTimestamp))
                          else ret tt)) st5)).
  { intros startTimestamp stopTimestamp st5 Hstart Hstop [Hout Hfail].
    unfold Q, reported, report_is.
    destruct (opt_truthy startTimestamp) eqn:Estart,
             (opt_truthy stopTimestamp) eqn:Estop;
      cbn; exists startTimestamp, stopTimestamp; rewrite Estart, Estop, Hout.
    all: split; [|done]; split; [|done]; by rewrite <- ?app_assoc, ?app_nil_r. }
  unfold run_try. rewrite (bind_returns _ _ _ _ _ Hrun).
  (* Collect attributes *)
  apply (bind_outcome P); [|done|done|intros attrs st2 Hst2].
  { apply keeps_on_host, keeps_collectAttributes. }
  (* Get access token *)
  apply (bind_outcome P); [|done|done|intros accessToken st3 Hst3].
  { apply keeps_withRetry_run, keeps_on_tokens. }
  destruct (eventState config) eqn:Hstate.
  - (* start *)
    apply (bind_outcome P); [apply keeps_send_event|done|done|].
    intros startTimestamp st4 Hst4.
    unfold bind at 1, ret at 1. by apply Hend.
  - (* stop *)
    unfold bind at 1, ret at 1.
    apply (bind_outcome P); [apply keeps_send_event|done|done|].
    intros stopTimestamp st5 Hst5. by apply Hend.
  - (* both *)
    apply (bind_outcome P); [apply keeps_send_event|done|done|].
    intros startTimestamp st4 Hst4.
    apply (bind_outcome P); [apply keeps_send_event|done|done|].
    intros stopTimestamp st5 Hst5. by apply Hend.
Qed.

(** X23.  A run reports the timestamps of the phases that [event_state]
    asks for and no other: with [event_state: stop] no [start_timestamp] is
    set, and with [event_state: start] no [stop_timestamp], whatever the
    API answers. *)
Theorem run_reports_phase (host : Host) (net : N) (config : ActionConfig)
    (h1 : Host) :
  host_outputs host = [] ->
  loadConfig host = (inr config, h1) ->
  let outputs := host_outputs (st_host (run Last9ApiClient host net)) in
  (eventState config = state_stop ->
   forall value, ~ In ("start_timestamp", value) outputs) /\
  (eventState config = state_start ->
   forall value, ~ In ("stop_timestamp", value) outputs).
Proof.
  intros Hempty Hload outputs.
  pose proof (run_try_phases host (st_tokens (initial host net)) net config h1 Hload)
    as Htry.
  subst outputs. unfold run, try_catch.
  change (initial host net)
    with {| st_host := host; st_tokens := st_tokens (initial host net); st_net := net |}.
  destruct (run_try Last9ApiClient _) as [[error|[]] st'].
  - destruct Htry as [Hout _]. cbn. rewrite Hout, Hempty.
    split; intros _ value [Heq|[]]; discriminate Heq.
  - destruct Htry as (startTimestamp & stopTimestamp & [Hout _] & Hstart & Hstop).
    cbn [snd]. rewrite Hout, Hempty. cbn [app]. unfold reported.
    split; intros Hstate value.
    + rewrite (Hstart Hstate). cbn [opt_truthy app].
      destruct (opt_truthy stopTimestamp); intros [Heq|Hin]; try discriminate Heq;
        [destruct Hin as [Heq|[]]; discriminate Heq | destruct Hin].
    + rewrite (Hstop Hstate). cbn [opt_truthy]. rewrite app_nil_r.
      destruct (opt_truthy startTimestamp); intros [Heq|Hin]; try discriminate Heq;
        [destruct Hin as [Heq|[]]; discriminate Heq | destruct Hin].
Qed.

End RunExtras.

(** ** The API client, for any network *)

Section ClientFacts.

Import Http Last9 Retry.

Context `{Builtins} `{UrlEncoder} `{Serializer}.
Context {S : Type} `{Runtime S} `{Network S}.

Variable this : Last9ApiClient.

Lemma createHttpError_retried (now status : Z) (msg : string) (ctx : option Context) :
  retryable (createHttpError now status msg ctx) = retried_status status /\
  statusCode (createHttpError now status msg ctx)
  = Some (if status =? 504 then 408 else status).
Proof.
  unfold createHttpError, retried_status, isServerError, isClientError,
    TOO_MANY_REQUESTS, TIMEOUT, GATEWAY_TIMEOUT.
  zcases; cbn; zcases; cbn; repeat split; try done; try lia; f_equal; lia.
Qed.

Lemma passed_on_handler (request_url : string) (options : RequestOptions)
    (rejected : Thrown) (s : S) :
  exists thrown,
    makeRequest_catch this request_url options rejected s = (inl thrown, s) /\
    passed_on rejected thrown.
Proof.
  unfold makeRequest_catch.
  destruct rejected as [e|name msg| | |r]; cbn; eauto.
  destruct (String.eqb name "AbortError"); [cbn; eauto 10|].
  destruct (String.eqb name "TypeError"); [|cbn; eauto].
  eexists. split; [reflexivity|]. eexists. split; [reflexivity|].
  unfold createNetworkError. destruct (includes _ _); cbn; auto.
Qed.

(** What a call of [makeRequest] does when [fetch] resolves with a
    response. *)
Lemma makeRequest_response (request_url : string) (options : RequestOptions)
    (s s1 : S) (response : Response) :
  fetch {| url := request_url;
           method := options_method options;
           headers := options_headers options;
           body := options_body options;
           signal := timeoutMs this |} s = (inr response, s1) ->
  if isSuccessStatus (status response)
  then makeRequest this request_url options s = (inr response, s1)
  else forall errorBody,
      text response = inr errorBody ->
      exists error,
        makeRequest this request_url options s = (inl (ThrowLast9 error), s1) /\
        retryable error = retried_status (status response) /\
        statusCode error
        = Some (if status response =? 504 then 408 else status response).
Proof.
  intros Hfetch. destruct (isSuccessStatus (status response)) eqn:Hstatus.
  - unfold makeRequest, try_catch, bind. by rewrite Hfetch, Hstatus.
  - intros errorBody Hbody. unfold makeRequest, try_catch, bind.
    rewrite Hfetch, Hstatus, Hbody. cbn.
    eexists. split; [reflexivity|]. apply createHttpError_retried.
Qed.

(** Whether a call of [makeRequest] returns or throws. *)
Lemma makeRequest_cases (request_url : string) (options : RequestOptions) (s : S) :
  match fetch {| url := request_url;
                 method := options_method options;
                 headers := options_headers options;
                 body := options_body options;
                 signal := timeoutMs this |} s with
  | (inr response, s1) =>
      if isSuccessStatus (status response)
      then makeRequest this request_url options s = (inr response, s1)
      else exists thrown, makeRequest this request_url options s = (inl thrown, s1)
  | (inl rejected, s1) =>
      exists thrown, makeRequest this request_url options s = (inl thrown, s1)
  end.
Proof.
  destruct (fetch _ s) as [[rejected|response] s1] eqn:Hfetch.
  - destruct (passed_on_handler request_url options rejected s1) as (thrown & Hcatch & _).
    exists thrown. unfold makeRequest, try_catch, bind. by rewrite Hfetch.
  - destruct (isSuccessStatus (status response)) eqn:Hstatus.
    { unfold makeRequest, try_catch, bind. by rewrite Hfetch, Hstatus. }
    destruct (text response) as [unread|errorBody] eqn:Hbody.
    + destruct (passed_on_handler request_url options unread s1) as (thrown & Hcatch & _).
      exists thrown. unfold makeRequest, try_catch, bind.
      by rewrite Hfetch, Hstatus, Hbody.
    + unfold makeRequest, try_catch, bind. rewrite Hfetch, Hstatus, Hbody. cbn. eauto.
Qed.

(** X24.  [makeRequest] makes one call of [fetch] and returns a response
    only when [fetch] resolved with it and its status is from 200 to 299.
    A response with any other status is thrown as a [Last9Error], which is
    retryable exactly when the status is 408, 429 or at least 500, and
    which carries the status (a 504 as 408).  A rejection of [fetch], or
    of the read of the body, is passed on: an abort as a timeout, a
    [TypeError] as a network error, anything else as it is. *)
Theorem makeRequest_outcome (request_url : string) (options : RequestOptions) (s : S) :
  let request := {| url := request_url;
                    method := options_method options;
                    headers := options_headers options;
                    body := options_body options;
                    signal := timeoutMs this |} in
  snd (makeRequest this request_url options s) = snd (fetch request s) /\
  match fst (fetch request s), fst (makeRequest this request_url options s) with
  | inr response, inr returned =>
      returned = response /\ isSuccessStatus (status response) = true
  | inr response, inl thrown =>
      isSuccessStatus (status response) = false /\
      match text response with
      | inr errorBody =>
          exists error,
            thrown = ThrowLast9 error /\
            retryable error = retried_status (status response) /\
            statusCode error
            = Some (if status response =? 504 then 408 else status response)
      | inl unread => passed_on unread thrown
      end
  | inl rejected, inl thrown => passed_on rejected thrown
  | inl rejected, inr returned => False
  end.
Proof.
  cbv zeta.
  destruct (fetch _ s) as [[rejected|response] s1] eqn:Hfetch; cbn [fst snd].
  - destruct (passed_on_handler request_url options rejected s1) as (thrown & Hcatch & Hpassed).
    assert (makeRequest this request_url options s = (inl thrown, s1)) as ->; [|done].
    unfold makeRequest, try_catch, bind. by rewrite Hfetch.
  - destruct (isSuccessStatus (status response)) eqn:Hstatus.
    { assert (makeRequest this request_url options s = (inr response, s1)) as ->; [|done].
      unfold makeRequest, try_catch, bind. by rewrite Hfetch, Hstatus. }
    destruct (text response) as [unread|errorBody] eqn:Hbody.
    + destruct (passed_on_handler request_url options unread s1)
        as (thrown & Hcatch & Hpassed).
      assert (makeRequest this request_url options s = (inl thrown, s1)) as ->; [|done].
      unfold makeRequest, try_catch, bind. by rewrite Hfetch, Hstatus, Hbody.
    + pose proof (makeRequest_response request_url options s s1 response Hfetch)
        as Hrequest.
      rewrite Hstatus in Hrequest.
      destruct (Hrequest errorBody Hbody) as (error & -> & Hretry & Hcode).
      cbn. eauto 10.
Qed.

(** X25.  [healthCheck] never throws and makes one call of [fetch]: it
    returns [true] when [fetch] resolves with a status from 200 to 299, and
    [false] for any other status and for any rejection. *)
Theorem healthCheck_never_throws (s : S) :
  let request := {| url := buildUrl (baseUrl this) "/health" None;
                    method := "GET"; headers := []; body := None;
                    signal := timeoutMs this |} in
  healthCheck this s
  = (inr match fst (fetch request s) with
         | inr response => isSuccessStatus (status response)
         | inl _ => false
         end,
     snd (fetch request s)).
Proof.
  cbv zeta. unfold healthCheck, try_catch. cbv zeta. unfold bind at 1.
  pose proof (makeRequest_cases (buildUrl (baseUrl this) "/health" None)
                {| options_method := "GET"; options_headers := [];
                   options_body := None |} s) as Hcases.
  cbn [options_method options_headers options_body] in Hcases.
  destruct (fetch _ s) as [[rejected|response] s1]; cbn [fst snd].
  - destruct Hcases as [thrown ->]. done.
  - destruct (isSuccessStatus (status response)) eqn:Hstatus.
    + rewrite Hcases. cbn. by rewrite Hstatus.
    + destruct Hcases as [thrown ->]. done.
Qed.

(** A call of [sendChangeEvent] on a network that answers every request
    with one response that is no success. *)
Lemma sendChangeEvent_refused (orgSlug : string) (event : ChangeEvent)
    (accessToken : string) (response : Response) (errorBody : string) (s : S) :
  (forall request s0, exists s1, fetch request s0 = (inr response, s1)) ->
  isSuccessStatus (status response) = false ->
  text response = inr errorBody ->
  exists error s1,
    sendChangeEvent this orgSlug event accessToken s = (inl (ThrowLast9 error), s1) /\
    retryable error = retried_status (status response).
Proof.
  intros Hfetch Hstatus Hbody. unfold sendChangeEvent, try_catch. cbv zeta.
  unfold bind at 1.
  match goal with
  | |- context [makeRequest this ?u ?o s] =>
      destruct (Hfetch {| url := u;
                          method := options_method o;
                          headers := options_headers o;
                          body := options_body o;
                          signal := timeoutMs this |} s) as [s1 Hanswer];
      pose proof (makeRequest_response u o s s1 response Hanswer) as Hrequest
  end.
  rewrite Hstatus in Hrequest.
  destruct (Hrequest errorBody Hbody) as (error & -> & Hretry & _).
  cbn. eauto.
Qed.

(** X26.  The retry policy of a send.  On a network that answers every
    request with the same response, of a status that is no success,
    [sendChangeEvent] under [withRetry] with [maxAttempts = m >= 1] is
    called m times when the status is 408, 429 or at least 500, and once
    for every other status; what is thrown in the end is a [Last9Error]. *)
Theorem sendChangeEvent_retry_policy (orgSlug : string) (event : ChangeEvent)
    (accessToken : string) (response : Response) (errorBody : string)
    (config : RetryConfig) (m : Z) (s : S) :
  (forall request s0, exists s1, fetch request s0 = (inr response, s1)) ->
  isSuccessStatus (status response) = false ->
  text response = inr errorBody ->
  maxAttempts config = of_Z m ->
  1 <= m ->
  let run := withRetry_logged (sendChangeEvent this orgSlug event accessToken) config s in
  attempts (snd run) = seqZ 0 (if retried_status (status response) then m else 1) /\
  exists error,
    fst (fst run) = inl (ThrowLast9 error) /\
    retryable error = retried_status (status response).
Proof.
  intros Hfetch Hstatus Hbody Hmax Hm run. subst run.
  destruct (retried_status (status response)) eqn:Hretried.
  - pose proof (withRetry_logged_loop
                  (sendChangeEvent this orgSlug event accessToken) config s) as Hrun.
    destruct (withRetry_logged _ config s) as [out log].
    eapply (withRetry_loop_all_fail _ config m Hmax) in Hrun
      as (_ & Hattempts & _ & thrown & s_last & Hlast & Hout & _); [| |lia].
    + rewrite Z.sub_0_r in Hattempts. split; [done|].
      destruct (sendChangeEvent_refused orgSlug event accessToken response errorBody
                  s_last Hfetch Hstatus Hbody) as (error & s1 & Hsend & Hretry).
      rewrite Hsend in Hlast. injection Hlast as <- _.
      exists error. cbn [fst]. by rewrite Hout, Hretry.
    + intros s0.
      destruct (sendChangeEvent_refused orgSlug event accessToken response errorBody
                  s0 Hfetch Hstatus Hbody) as (error & s1 & Hsend & Hretry).
      exists (ThrowLast9 error), s1. split; [done|]. cbn. by rewrite Hretry.
  - destruct (sendChangeEvent_refused orgSlug event accessToken response errorBody
                s Hfetch Hstatus Hbody) as (error & s1 & Hsend & Hretry).
    rewrite (withRetry_first_call_final _ config m s s1 (ThrowLast9 error));
      try done.
    + cbn. split; [done|]. exists error. by rewrite Hretry.
    + cbn. by rewrite Hretry.
Qed.

(** X27.  An accepted event can still fail the run.  When the send is
    answered with a status from 200 to 299 and a body that is not JSON,
    [sendChangeEvent] throws the [SyntaxError] of the parse as it is; the
    error is not retryable, so under [withRetry] the send is made once and
    the [SyntaxError] is what the run fails with. *)
Theorem sendChangeEvent_unparsable_body (orgSlug : string) (event : ChangeEvent)
    (accessToken : string) (response : Response) (answer syntax_error : string)
    (config : RetryConfig) (m : Z) (s s1 : S) :
  (forall request, fetch request s = (inr response, s1)) ->
  isSuccessStatus (status response) = true ->
  text response = inr answer ->
  JSON_parse answer = inl syntax_error ->
  maxAttempts config = of_Z m ->
  1 <= m ->
  withRetry_logged (sendChangeEvent this orgSlug event accessToken) config s
  = ((inl (ThrowError "SyntaxError" syntax_error), s1),
     [Attempt 0 (inl (ThrowError "SyntaxError" syntax_error))]).
Proof.
  intros Hfetch Hstatus Hbody Hparse Hmax Hm.
  apply (withRetry_first_call_final _ config m); try done.
  unfold sendChangeEvent, try_catch. cbv zeta. unfold bind at 1.
  match goal with
  | |- context [makeRequest this ?u ?o s] =>
      pose proof (makeRequest_response u o s s1 response (Hfetch _)) as Hrequest
  end.
  rewrite Hstatus in Hrequest. rewrite Hrequest.
  unfold bind at 1, json. rewrite Hbody, Hparse. done.
Qed.

(** X28.  The payload of an event holds no empty value: [event_name] and
    [event_state] are always there, in that order and first, and a
    timestamp, a data source name and the attributes are there exactly
    when they are not empty.  No key occurs twice. *)
Theorem buildEventPayload_no_empty_value (event : ChangeEvent) :
  let payload := buildEventPayload event in
  firstn 2 payload
  = [("event_name", PayloadString (event_name event));
     ("event_state", PayloadString (state_name (event_state event)))] /\
  NoDup (map fst payload) /\
  (In "timestamp" (map fst payload) <-> opt_truthy (timestamp event) = true) /\
  (In "data_source_name" (map fst payload)
   <-> opt_truthy (data_source_name event) = true) /\
  (In "attributes" (map fst payload) <-> attributes event <> ∅) /\
  Forall (fun property =>
            match property.2 with
            | PayloadString text => property.1 = "event_name" \/ text <> EmptyString
            | PayloadAttributes a => a = attributes event /\ a <> ∅
            end)
    payload.
Proof.
  unfold buildEventPayload. cbv zeta.
  assert (Hsize : Nat.ltb 0 (size (attributes event)) = true <-> attributes event <> ∅).
  { rewrite Nat.ltb_lt. rewrite <- map_size_empty_iff. lia. }
  assert (Htruthy : forall o, opt_truthy o = true -> default EmptyString o <> EmptyString).
  { intros [[|c rest]|]; by cbn. }
  destruct (opt_truthy (timestamp event)) eqn:Hts,
           (opt_truthy (data_source_name event)) eqn:Hds,
           (Nat.ltb 0 (size (attributes event))) eqn:Hattrs.
  all: cbn [app map fst firstn].
  all: split; [reflexivity|].
  all: split; [compute_done|].
  all: split; [cbn [In]; intuition discriminate|].
  all: split; [cbn [In]; intuition discriminate|].
  all: split;
    [cbn [In]; rewrite <- Hsize; intuition (discriminate || congruence)|].
  all: repeat (apply List.Forall_cons; [cbn [fst snd]|]); try apply List.Forall_nil.
  all: first [ by left
             | right; by apply Htruthy
             | right; by destruct (event_state event)
             | split; [done | by apply Hsize] ].
Qed.

End ClientFacts.

(** ** Redaction *)

Section LoggerFacts.

Import Logger.













End LoggerFacts.

(** ** The further properties on scripted worlds *)

Section ExtraWitnesses.

Import Retry Token Config GitHub Main Sim Scenes.

Lemma buildUrl_slashes_witness :
  let url := "https://app.last9.io/health" in
  @Http.buildUrl sim_url_encoder "https://app.last9.io" "health" None = url /\
  @Http.buildUrl sim_url_encoder "https://app.last9.io/" "health" None = url /\
  @Http.buildUrl sim_url_encoder "https://app.last9.io" "/health" None = url /\
  @Http.buildUrl sim_url_encoder "https://app.last9.io/" "/health" None = url /\
  @Http.buildUrl sim_url_encoder "https://app.last9.io" "health" (Some []) = url.
Proof.
  exact (@buildUrl_slashes sim_url_encoder "https://app.last9.io" "health"
           eq_refl eq_refl).
Defined.

Lemma isExpired_monotone_witness :
  @TimeUtils.isExpired sim_builtins 1700003300000
    (inl (of_Z 1700003600)) (Some (of_Z 300)) = true /\
  @TimeUtils.isExpired sim_builtins 1700003300001
    (inl (of_Z 1700003600)) (Some (of_Z 600)) = true.
Proof.
  assert (Hnow : @TimeUtils.isExpired sim_builtins 1700003300000
                   (inl (of_Z 1700003600)) (Some (of_Z 300)) = true)
    by (vm_compute; reflexivity).
  split; [exact Hnow|].
  apply (@isExpired_monotone sim_builtins 1700003300000 1700003300001
           (inl (of_Z 1700003600)) 300 600); [lia | discriminate | exact Hnow].
Defined.

Lemma isExpired_invalid_never_witness :
  @Date_parse sim_builtins "tomorrow" = NaN /\
  @TimeUtils.isExpired sim_builtins 1700000000000 (inr "tomorrow") None = false /\
  @TimeUtils.isExpired sim_builtins 1700000000000 (inl NaN) None = false /\
  @TimeUtils.isExpired sim_builtins 1700000000000 (inl (of_Z 0)) (Some NaN) = false.
Proof.
  split; [reflexivity|].
  exact (@isExpired_invalid_never sim_builtins 1700000000000 "tomorrow"
           (inl (of_Z 0)) None eq_refl).
Defined.





Lemma getAccessToken_keeps_expiring_witness :
  expiring manager0 /\
  expiring manager1 /\
  forall key, exists limit : Z,
    forall now, limit <= now -> @valid_cached sim_builtins manager1 key now = None.
Proof.
  assert (Hnew : expiring manager0) by (split; [reflexivity | apply map_Forall_empty]).
  split; [exact Hnew|].
  exact (@getAccessToken_keeps_expiring sim_builtins _ sim_runtime sim_client
           manager0 "refresh-1" answered Hnew).
Defined.

Lemma run_stops_at_config_error_witness :
  let thrown :=
    ThrowLast9 (InvalidInputError
      "Failed to get input 'refresh_token': Input required and not supplied: refresh_token"
      None) in
  let final := run_sim job_empty all_accepted in
  @loadConfig sim_builtins Host GitHubContextProvider job_empty = (inl thrown, job_empty) /\
  st_net final = all_accepted /\
  st_tokens final = st_tokens (@initial World job_empty all_accepted) /\
  host_outputs (st_host final) = host_outputs job_empty ++ [("success", "false")] /\
  exists error,
    thrown = ThrowLast9 error /\
    (code error = INVALID_INPUT \/ code error = CONFIG_ERROR) /\
    host_failed (st_host final) = Some (failure_message error).
Proof.
  intros thrown final.
  assert (Hload : @loadConfig sim_builtins Host GitHubContextProvider job_empty
                  = (inl thrown, job_empty))
    by (vm_compute; reflexivity).
  split; [exact Hload|].
  exact (@run_stops_at_config_error sim_builtins World sim_runtime (fun _ => sim_client)
           job_empty all_accepted thrown job_empty Hload).
Defined.

Lemma run_without_attempts_witness :
  let h1 := with_secrets job_no_attempts ["refresh-1"] in
  let final := run_sim job_no_attempts all_accepted in
  @loadConfig sim_builtins Host GitHubContextProvider job_no_attempts
  = (inr no_attempts_config, h1) /\
  st_net final = all_accepted /\
  st_tokens final = st_tokens (@initial World job_no_attempts all_accepted) /\
  host_failed (st_host final)
  = Some "UnknownError: Unknown error occurred (UNKNOWN_ERROR)" /\
  host_outputs (st_host final) = host_outputs job_no_attempts ++ [("success", "false")].
Proof.
  intros h1 final.
  assert (Hload : @loadConfig sim_builtins Host GitHubContextProvider job_no_attempts
                  = (inr no_attempts_config, h1))
    by (vm_compute; reflexivity).
  split; [exact Hload|].
  exact (@run_without_attempts sim_builtins World sim_runtime (fun _ => sim_client)
           job_no_attempts all_accepted no_attempts_config h1 Hload
           (or_intror (ex_intro _ 0 (conj (Z.le_refl 0) eq_refl)))).
Defined.

Lemma run_reports_phase_witness :
  let h1 := with_secrets job_without_env ["refresh-1"] in
  let outputs := host_outputs (st_host (run_sim job_without_env all_accepted)) in
  @loadConfig sim_builtins Host GitHubContextProvider job_without_env
  = (inr default_config, h1) /\
  eventState default_config = state_stop /\
  forall value, ~ In ("start_timestamp", value) outputs.
Proof.
  intros h1 outputs.
  assert (Hload : @loadConfig sim_builtins Host GitHubContextProvider job_without_env
                  = (inr default_config, h1))
    by (vm_compute; reflexivity).
  split; [exact Hload|]. split; [reflexivity|].
  exact (proj1 (@run_reports_phase sim_builtins World sim_runtime (fun _ => sim_client)
                  job_without_env all_accepted default_config h1 eq_refl Hload)
           eq_refl).
Defined.

Lemma sendChangeEvent_retry_policy_witness :
  (attempts (snd (@withRetry_logged _ _ sim_runtime (send_stop unavailable_response)
                    three_attempts world0))
   = seqZ 0 3 /\
   exists error,
     fst (fst (@withRetry_logged _ _ sim_runtime (send_stop unavailable_response)
                 three_attempts world0))
     = inl (ThrowLast9 error) /\
     retryable error = true) /\
  (attempts (snd (@withRetry_logged _ _ sim_runtime (send_stop not_found_response)
                    three_attempts world0))
   = seqZ 0 1 /\
   exists error,
     fst (fst (@withRetry_logged _ _ sim_runtime (send_stop not_found_response)
                 three_attempts world0))
     = inl (ThrowLast9 error) /\
     retryable error = false).
Proof.
  split.
  - exact (@sendChangeEvent_retry_policy sim_builtins sim_url_encoder sim_serializer
             World sim_runtime (answers unavailable_response) client0 "acme" stop_event
             "access-1" unavailable_response "Service Unavailable" three_attempts 3
             world0
             (fun request s0 => ex_intro _ s0 eq_refl) eq_refl eq_refl eq_refl
             ltac:(lia)).
  - exact (@sendChangeEvent_retry_policy sim_builtins sim_url_encoder sim_serializer
             World sim_runtime (answers not_found_response) client0 "acme" stop_event
             "access-1" not_found_response "Not Found" three_attempts 3
             world0
             (fun request s0 => ex_intro _ s0 eq_refl) eq_refl eq_refl eq_refl
             ltac:(lia)).
Defined.

Lemma sendChangeEvent_unparsable_body_witness :
  @withRetry_logged _ _ sim_runtime (send_stop garbled_response) three_attempts world0
  = ((inl (ThrowError "SyntaxError" "Unexpected token"), world0),
     [Attempt 0 (inl (ThrowError "SyntaxError" "Unexpected token"))]).
Proof.
  exact (@sendChangeEvent_unparsable_body sim_builtins sim_url_encoder sim_serializer
           World sim_runtime (answers garbled_response) client0 "acme" stop_event
           "access-1" garbled_response "<html>OK</html>" "Unexpected token"
           three_attempts 3 world0 world0
           (fun request => eq_refl) eq_refl eq_refl eq_refl eq_refl ltac:(lia)).
Defined.


End ExtraWitnesses.
